(** * auto_bot: the moderation queue of the anonymous-submission bot

    A shallow embedding of [src/auto_bot.py].  The program keeps four pieces
    of mutable state (the module globals [queue], [_next_qid],
    [user_submissions] and the per-user [context.user_data]); every handler is
    embedded as a function from a state and an incoming update to a new state
    and the list of transport calls it makes. *)

From Stdlib Require Import ZArith List String Bool Lia.
From stdpp Require Import gmap strings list fin_maps sorting pretty.

Local Open Scope string_scope.
Local Open Scope list_scope.
Local Open Scope Z_scope.

(** ** Configuration constants (lines 31-33) *)

Definition MAX_QUEUE_SIZE : Z := 50.
Definition RATE_LIMIT_COUNT : Z := 3.
Definition RATE_LIMIT_WINDOW : Z := 300.

(** ** Time

    A [datetime] is a whole number of microseconds on the wall clock and a
    [timedelta] a whole number of microseconds; both are [Z] here. *)

Definition usec_per_sec : Z := 1000000.

(** [timedelta(seconds=n)] *)
Definition timedelta_seconds (n : Z) : Z := n * usec_per_sec.

(** [int(d.total_seconds())]: [total_seconds] divides the microsecond count
    by 10^6 and [int] truncates toward zero.  (The quotient is exact in
    double precision for every duration this program can produce.) *)
Definition int_total_seconds (d : Z) : Z := Z.quot d usec_per_sec.

(** ** Python truthiness helpers *)

(** [x or d] for an optional string [x]: [None] and the empty string are both
    falsy. *)
Definition str_or (x : option string) (d : string) : string :=
  match x with
  | Some s => if String.eqb s "" then d else s
  | None => d
  end.

(** [bool(x)] for an optional string. *)
Definition truthy_str (x : option string) : bool :=
  match x with
  | Some s => negb (String.eqb s "")
  | None => false
  end.

(** [x or None] for a string. *)
Definition str_or_None (s : string) : option string :=
  if String.eqb s "" then None else Some s.

(** ** Characters

    A Python [str] is a sequence of characters (code points), and [len] and
    slicing count characters.  A [string] here is a sequence of bytes and
    holds the UTF-8 encoding of the Python string: a character is one byte
    that is not of the form [10xxxxxx], followed by its continuation bytes,
    which all are of that form. *)

(** The byte continues a character: it lies in [128, 192). *)
Definition is_continuation (c : Ascii.ascii) : bool :=
  let n := Ascii.nat_of_ascii c in ((128 <=? n) && (n <? 192))%nat.

(** [len(s)]: one for each byte that starts a character. *)
Fixpoint str_len (s : string) : nat :=
  match s with
  | EmptyString => 0%nat
  | String c rest =>
    ((if is_continuation c then 0 else 1) + str_len rest)%nat
  end.

(** [s[:n]]: the first [n] characters, each with its continuation bytes. *)
Fixpoint str_take (n : nat) (s : string) : string :=
  match s with
  | EmptyString => EmptyString
  | String c rest =>
    if is_continuation c then String c (str_take n rest)
    else
      match n with
      | O => EmptyString
      | S n' => String c (str_take n' rest)
      end
  end.

(** [min(l)] on a list of datetimes; Python raises on the empty list, which
    the only call site excludes (the list has at least [RATE_LIMIT_COUNT]
    elements there). *)
Definition py_min (l : list Z) : Z :=
  match l with
  | [] => 0
  | x :: xs => fold_left Z.min xs x
  end.

(** ** Data model *)

(** The fields of a Telegram message that the program reads. *)
Record Message := {
  msg_chat_id : Z;
  msg_chat_type : string;
  msg_message_id : Z;
  msg_from_id : Z;                     (* msg.from_user.id *)
  msg_first_name : option string;      (* msg.from_user.first_name *)
  msg_username : option string;        (* msg.from_user.username *)
  msg_text : option string;
  msg_caption : option string;
  msg_photo : list string;             (* file ids of the photo sizes *)
  msg_video : option string;           (* file id *)
  msg_document : option string;
  msg_voice : option string
}.

(** A queue entry (the dict built at lines 175-189).  The key
    ["edited_caption"] is absent until the first caption edit; reading it
    with [.get] gives [None] then, so both override fields are options. *)
Record Entry := {
  chat_id : Z;
  message_id : Z;
  has_media : bool;
  text : string;
  caption : string;
  message_obj : Message;
  sender_info : string;
  sender_id : Z;
  sender_name : string;
  sender_username : option string;
  edited_text : option string;
  edited_caption : option string;
  timestamp : Z;
  admin_messages : gmap Z Z
}.

(** The program state: the three module globals and the per-user
    [user_data] (only its ['editing_qid'] key is used). *)
Record State := {
  queue : gmap Z Entry;
  _next_qid : Z;
  user_submissions : gmap Z (list Z);
  user_data : gmap Z Z
}.

Definition set_queue (q : gmap Z Entry) (s : State) : State :=
  {| queue := q; _next_qid := _next_qid s;
     user_submissions := user_submissions s; user_data := user_data s |}.

Definition set_next_qid (n : Z) (s : State) : State :=
  {| queue := queue s; _next_qid := n;
     user_submissions := user_submissions s; user_data := user_data s |}.

Definition set_user_submissions (u : gmap Z (list Z)) (s : State) : State :=
  {| queue := queue s; _next_qid := _next_qid s;
     user_submissions := u; user_data := user_data s |}.

Definition set_user_data (d : gmap Z Z) (s : State) : State :=
  {| queue := queue s; _next_qid := _next_qid s;
     user_submissions := user_submissions s; user_data := d |}.

Definition set_edited_text (v : option string) (e : Entry) : Entry :=
  {| chat_id := chat_id e; message_id := message_id e; has_media := has_media e;
     text := text e; caption := caption e; message_obj := message_obj e;
     sender_info := sender_info e; sender_id := sender_id e;
     sender_name := sender_name e; sender_username := sender_username e;
     edited_text := v; edited_caption := edited_caption e;
     timestamp := timestamp e; admin_messages := admin_messages e |}.

Definition set_edited_caption (v : option string) (e : Entry) : Entry :=
  {| chat_id := chat_id e; message_id := message_id e; has_media := has_media e;
     text := text e; caption := caption e; message_obj := message_obj e;
     sender_info := sender_info e; sender_id := sender_id e;
     sender_name := sender_name e; sender_username := sender_username e;
     edited_text := edited_text e; edited_caption := v;
     timestamp := timestamp e; admin_messages := admin_messages e |}.

Definition set_admin_messages (m : gmap Z Z) (e : Entry) : Entry :=
  {| chat_id := chat_id e; message_id := message_id e; has_media := has_media e;
     text := text e; caption := caption e; message_obj := message_obj e;
     sender_info := sender_info e; sender_id := sender_id e;
     sender_name := sender_name e; sender_username := sender_username e;
     edited_text := edited_text e; edited_caption := edited_caption e;
     timestamp := timestamp e; admin_messages := m |}.

(** ** Queue helpers (lines 44-56) *)

(** [next_qid()]: returns the counter and advances it. *)
Definition next_qid (s : State) : Z * State :=
  (_next_qid s, set_next_qid (_next_qid s + 1) s).

(** Index of the first occurrence, as [list.index]. *)
Fixpoint index_of (x : Z) (l : list Z) : option nat :=
  match l with
  | [] => None
  | y :: ys => if Z.eqb y x then Some O else option_map S (index_of x ys)
  end.

(** [get_queue_position(qid)]: 1-based rank among the sorted keys. *)
Definition get_queue_position (q : gmap Z Entry) (qid : Z) : option nat :=
  let sorted_qids := merge_sort Z.le (map fst (map_to_list q)) in
  option_map S (index_of qid sorted_qids).

(** ** Rate limiting (lines 58-71) *)

(** [user_submissions[user_id]] on a [defaultdict(list)]. *)
Definition submissions_of (subs : gmap Z (list Z)) (user_id : Z) : list Z :=
  default [] (subs !! user_id).

(** The retention test of the list comprehension. *)
Definition in_window (now ts : Z) : bool :=
  now - ts <? timedelta_seconds RATE_LIMIT_WINDOW.

(** [check_rate_limit(user_id)] with the clock reading [now] made explicit.
    Returns [(allowed, wait_seconds)] and the pruned table. *)
Definition check_rate_limit (now : Z) (user_id : Z) (subs : gmap Z (list Z))
  : (bool * Z) * gmap Z (list Z) :=
  let kept := List.filter (in_window now) (submissions_of subs user_id) in
  let subs' := <[user_id := kept]> subs in
  if RATE_LIMIT_COUNT <=? Z.of_nat (length kept) then
    let oldest := py_min kept in
    let wait_until := oldest + timedelta_seconds RATE_LIMIT_WINDOW in
    let wait_seconds := int_total_seconds (wait_until - now) in
    ((false, wait_seconds), subs')
  else ((true, 0), subs').


(** ** Transport calls

    The handlers talk to Telegram only through the calls below.  The text of
    each message is kept as a structured [Body]; the comment on each
    constructor quotes the source string it stands for. *)

Inductive Target :=
  | Channel                (* CHANNEL_ID *)
  | Chat (id : Z).

Inductive MediaKind := Photo | Video | Document | Voice.

Inductive Body :=
  | Raw (content : string)                       (* the content itself *)
  | RateLimitExceeded (minutes seconds : Z)      (* "Rate limit exceeded. Please wait {minutes}m {seconds}s ..." *)
  | QueueIsFull                                  (* "The moderation queue is full (50 items)..." *)
  | TextOnlyWhenEditing                          (* "Please send text only when editing..." *)
  | InModerationQueue (position : option nat) (total : nat)
                                                 (* "Your message is in the moderation queue. Position: {position}/{len(queue)}" *)
  | NewTextSubmission (qid : Z) (info content : string)
                                                 (* "New Text Submission — Queue ID: {qid} ..." *)
  | MediaCaption (k : MediaKind) (qid : Z) (info caption : string)
                                                 (* "Photo - Queue ID: {qid} ... Caption: {msg.caption or '(none)'}" *)
  | BadCallbackData                              (* "Bad callback data." *)
  | NotAuthorizedToModerate                      (* "You are not authorized to moderate." *)
  | NotFoundOrHandled                            (* "Submission not found or already handled." *)
  | DetailsView (qid : Z) (edited : bool) (info : string) (submitted : Z)
      (position : option nat) (total : nat) (media : bool)
      (original : string) (override : option string)
  | ModerationView (qid : Z) (edited : bool) (info preview : string)
  | EditPrompt (qid : Z) (media : bool) (current : string)
  | EditCancelled                                (* "Edit cancelled." *)
  | RejectedBanner (qid : Z)                     (* "Submission {qid} rejected" *)
  | RejectedNotice                               (* "Your submission was rejected by the moderator." *)
  | ApprovedBanner (qid : Z)                     (* "Submission {qid} approved and posted." *)
  | ApprovedNotice                               (* "Your submission was approved and posted anonymously." *)
  | ErrorPosting (qid : Z)                       (* "Error posting submission {qid}: {e}" *)
  | NotAuthorized                                (* "Not authorized." *)
  | SubmissionNotFound                           (* "Submission not found." *)
  | EditedView (qid : Z) (media : bool) (info new_text : string)
                                                 (* "Edited {Media|Text} Submission — Queue ID: {qid} ... Edit completed." *)
  | UpdatedCheckAbove                            (* "Updated! Check the moderation message above." *)
  | EditSaved (media : bool) (qid : Z).          (* "{Caption|Text} updated for submission {qid}." *)

Inductive Effect :=
  | ReplyText (b : Body)                                  (* msg.reply_text(...) to the sender *)
  | SendMessage (to : Target) (b : Body)                  (* bot.send_message *)
  | SendMedia (to : Target) (k : MediaKind) (file_id : string)
      (cap : option string)                               (* bot.send_photo / send_video / send_document / send_voice *)
  | ForwardMedia (admin : Z) (k : MediaKind) (file_id : string) (b : Body)
                                                          (* forward_media_to_admin *)
  | AnswerQuery                                           (* query.answer() *)
  | EditAdminMessage (actor : Z) (b : Body)               (* edit_admin_message(query, ...) *)
  | EditMessage (chat : Z) (message_id : Z) (b : Body).   (* bot.edit_message_text / edit_message_caption *)

(** What the surroundings contribute to one handler run: the clock readings
    of the three [datetime.now()] calls and the results of the sends that the
    program guards with [try]. *)
Record Env := {
  now_check : Z;                (* datetime.now() inside check_rate_limit *)
  now_entry : Z;                (* datetime.now() stored as entry["timestamp"] *)
  now_append : Z;               (* datetime.now() appended to user_submissions *)
  admin_sent : Z -> option Z;   (* message id of the notification sent to an admin; None if that send raised *)
  edit_ok : bool;               (* bot.edit_message_text / edit_message_caption succeeds *)
  publish_ok : bool             (* the send to the channel succeeds *)
}.

(** A callback query: who pressed the button, and the callback data after
    [action, sid = query.data.split(":")] and [qid = int(sid)]; [None] stands
    for data on which that parsing raises. *)
Record CallbackQuery := {
  cq_from_id : Z;
  cq_data : option (string * Z)
}.

Definition present {A} (o : option A) : bool :=
  match o with Some _ => true | None => false end.

Definition nonempty {A} (l : list A) : bool :=
  match l with [] => false | _ => true end.

Definition nl : string := String (Ascii.ascii_of_nat 10) EmptyString.

(** [format_sender_info(user)] (lines 73-78) *)
Definition format_sender_info (msg : Message) : string :=
  let name := str_or (msg_first_name msg) "Unknown" in
  let username :=
    if truthy_str (msg_username msg)
    then ("@" ++ default "" (msg_username msg))%string else "No username" in
  ("👤 Sender: " ++ name ++ " (" ++ username ++ ")" ++ nl
    ++ "🆔 User ID: " ++ pretty (msg_from_id msg))%string.

(** The media branch that [forward_media_to_admin] and the approve path
    both select, in the order photo, video, document, voice; a photo is sent
    by the file id of its last size ([msg.photo[-1].file_id]). *)
Definition media_of (msg : Message) : option (MediaKind * string) :=
  match List.rev (msg_photo msg) with
  | f :: _ => Some (Photo, f)
  | [] =>
    match msg_video msg with
    | Some f => Some (Video, f)
    | None =>
      match msg_document msg with
      | Some f => Some (Document, f)
      | None =>
        match msg_voice msg with
        | Some f => Some (Voice, f)
        | None => None
        end
      end
    end
  end.

(** [bool(msg.photo or msg.video or msg.document or msg.voice)] *)
Definition msg_has_media (msg : Message) : bool :=
  nonempty (msg_photo msg) || present (msg_video msg)
  || present (msg_document msg) || present (msg_voice msg).

(** [context.user_data.get('editing_qid')], as a truth value: the key is set
    and the stored id is not 0. *)
Definition editing_qid (d : gmap Z Z) (user : Z) : option Z :=
  match d !! user with
  | Some q => if Z.eqb q 0 then None else Some q
  | None => None
  end.

(** ** The handlers *)

Section Handlers.

(** The configured moderator ids ([ADMINS], line 20). *)
Variable ADMINS : list Z.

(** [user_id in ADMINS] *)
Definition is_admin (user_id : Z) : bool := existsb (Z.eqb user_id) ADMINS.

(** *** [handle_edit_text] (lines 424-513) *)

Definition handle_edit_text (env : Env) (msg : Message) (s : State)
  : State * list Effect :=
  if negb (String.eqb (msg_chat_type msg) "private") then (s, [])
  else if negb (is_admin (msg_from_id msg)) then (s, [ReplyText NotAuthorized])
  else
    match editing_qid (user_data s) (msg_from_id msg) with
    | None => (s, [])
    | Some qid =>
      let admin_id := msg_from_id msg in
      match queue s !! qid with
      | None =>
        (set_user_data (delete admin_id (user_data s)) s,
         [ReplyText SubmissionNotFound])
      | Some entry =>
        let new_text := str_or (msg_text msg) "" in
        let entry' :=
          if has_media entry
          then set_edited_caption (Some new_text) entry
          else set_edited_text (Some new_text) entry in
        let s1 := set_queue (<[qid := entry']> (queue s)) s in
        let s2 := set_user_data (delete admin_id (user_data s1)) s1 in
        let shown :=
          if has_media entry then str_or (Some new_text) "(empty)" else new_text in
        let updated_text := EditedView qid (has_media entry) (sender_info entry) shown in
        let fallback :=
          [SendMessage (Chat admin_id) updated_text;
           ReplyText (EditSaved (has_media entry) qid)] in
        let effects :=
          match admin_messages entry !! admin_id with
          | Some mid =>
            if Z.eqb mid 0 then fallback
            else if edit_ok env
                 then [EditMessage admin_id mid updated_text; ReplyText UpdatedCheckAbove]
                 else fallback
          | None => fallback
          end in
        (s2, effects)
      end
    end.

(** *** [cancel_edit], the [/cancel] command (lines 515-517) *)

Definition cancel_edit (msg : Message) (s : State) : State * list Effect :=
  (set_user_data (delete (msg_from_id msg) (user_data s)) s,
   [ReplyText EditCancelled]).

(** *** [handle_private_message] (lines 137-237) *)

(** One round of the loop [for admin in ADMINS] (lines 215-237). *)
Definition notify_admin (env : Env) (msg : Message) (qid : Z) (info : string)
    (acc : State * list Effect) (admin : Z) : State * list Effect :=
  let '(s, effs) := acc in
  let record_id (mid : Z) (s : State) : State :=
    match queue s !! qid with
    | Some e =>
      set_queue (<[qid := set_admin_messages (<[admin := mid]> (admin_messages e)) e]>
                   (queue s)) s
    | None => s
    end in
  if truthy_str (msg_text msg) then
    match admin_sent env admin with
    | Some mid =>
      (record_id mid s,
       effs ++ [SendMessage (Chat admin)
                  (NewTextSubmission qid info (default "" (msg_text msg)))])
    | None => (s, effs)
    end
  else
    match media_of msg with
    | Some (k, f) =>
      match admin_sent env admin with
      | Some mid =>
        (record_id mid s,
         effs ++ [ForwardMedia admin k f
                    (MediaCaption k qid info (str_or (msg_caption msg) "(none)"))])
      | None => (s, effs)
      end
    | None => (s, effs)
    end.

Definition handle_private_message (env : Env) (msg : Message) (s : State)
  : State * list Effect :=
  if negb (String.eqb (msg_chat_type msg) "private") then (s, [])
  else
    let user_id := msg_from_id msg in
    let '((allowed, wait_seconds), subs) :=
      check_rate_limit (now_check env) user_id (user_submissions s) in
    let s1 := set_user_submissions subs s in
    if negb allowed then
      (s1, [ReplyText (RateLimitExceeded (wait_seconds / 60) (wait_seconds mod 60))])
    else if MAX_QUEUE_SIZE <=? Z.of_nat (size (queue s1)) then
      (s1, [ReplyText QueueIsFull])
    else if is_admin user_id && present (editing_qid (user_data s1) user_id) then
      if truthy_str (msg_text msg) then handle_edit_text env msg s1
      else (s1, [ReplyText TextOnlyWhenEditing])
    else
      let '(qid, s2) := next_qid s1 in
      let info := format_sender_info msg in
      let entry :=
        {| chat_id := msg_chat_id msg;
           message_id := msg_message_id msg;
           has_media := msg_has_media msg;
           text := str_or (msg_text msg) "";
           caption := str_or (msg_caption msg) "";
           message_obj := msg;
           sender_info := info;
           sender_id := user_id;
           sender_name := str_or (msg_first_name msg) "Unknown";
           sender_username :=
             if truthy_str (msg_username msg) then msg_username msg else None;
           edited_text := None;
           edited_caption := None;
           timestamp := now_entry env;
           admin_messages := ∅ |} in
      let s3 := set_queue (<[qid := entry]> (queue s2)) s2 in
      let position := get_queue_position (queue s3) qid in
      let s4 :=
        set_user_submissions
          (<[user_id := submissions_of (user_submissions s3) user_id ++ [now_append env]]>
             (user_submissions s3)) s3 in
      fold_left (notify_admin env msg qid info) ADMINS
        (s4, [ReplyText (InModerationQueue position (size (queue s4)))]).

(** *** [callback_handler] (lines 261-420)

    The handler touches the queue in two separate [async with queue_lock]
    regions: the lookup [queue.get(qid)] (lines 276-277), and later the
    action itself.  The two regions are embedded as [cb_lookup] and
    [cb_apply]; the handler is their composition. *)

Inductive Lookup :=
  | Stop (effects : list Effect)                     (* the handler returned *)
  | Hit (action : string) (qid : Z) (entry : Entry). (* entry found, dispatch follows *)

Definition cb_lookup (q : CallbackQuery) (s : State) : Lookup :=
  match cq_data q with
  | None => Stop [EditAdminMessage (cq_from_id q) BadCallbackData]
  | Some (action, qid) =>
    if negb (is_admin (cq_from_id q)) then
      Stop [EditAdminMessage (cq_from_id q) NotAuthorizedToModerate]
    else
      match queue s !! qid with
      | None => Stop [EditAdminMessage (cq_from_id q) NotFoundOrHandled]
      | Some entry => Hit action qid entry
      end
  end.

(** [entry.get("edited_text") or entry.get("edited_caption")] as a truth value *)
Definition is_edited (entry : Entry) : bool :=
  truthy_str (edited_text entry) || truthy_str (edited_caption entry).

(** [if len(preview) > 300: preview = preview[:300] + "…"] (lines 325-326);
    the length and the cut are in characters. *)
Definition truncate_preview (preview : string) : string :=
  if (300 <? str_len preview)%nat
  then (str_take 300 preview ++ "…")%string else preview.

(** The preview of the [back] view (lines 318-326). *)
Definition back_preview (entry : Entry) : string :=
  truncate_preview
    (if truthy_str (edited_text entry) then default "" (edited_text entry)
     else if truthy_str (edited_caption entry) then default "" (edited_caption entry)
     else str_or (Some (text entry))
            (str_or (Some (caption entry))
               (if has_media entry then "<media>" else "<empty>"))).

(** The content published on approval (lines 379-409); [None] when no
    branch of the [if]/[elif] chain applies. *)
Definition publish (entry : Entry) : option Effect :=
  let msg := message_obj entry in
  let text_to_post := str_or (edited_text entry) (str_or (Some (text entry)) "") in
  let caption_to_post := str_or (edited_caption entry) (str_or (Some (caption entry)) "") in
  if truthy_str (msg_text msg) then Some (SendMessage Channel (Raw text_to_post))
  else
    match media_of msg with
    | Some (k, f) => Some (SendMedia Channel k f (str_or_None caption_to_post))
    | None => None
    end.

Definition cb_apply (env : Env) (q : CallbackQuery)
    (action : string) (qid : Z) (entry : Entry) (s : State)
  : State * list Effect :=
  let actor := cq_from_id q in
  if String.eqb action "details" then
    let original :=
      if has_media entry then str_or (Some (caption entry)) "(none)" else text entry in
    let override :=
      if has_media entry
      then (if truthy_str (edited_caption entry) then edited_caption entry else None)
      else (if truthy_str (edited_text entry) then edited_text entry else None) in
    (s, [EditAdminMessage actor
           (DetailsView qid (is_edited entry) (sender_info entry) (timestamp entry)
              (get_queue_position (queue s) qid) (size (queue s))
              (has_media entry) original override)])
  else if String.eqb action "back" then
    (s, [EditAdminMessage actor
           (ModerationView qid (is_edited entry) (sender_info entry)
              (back_preview entry))])
  else if String.eqb action "edit" then
    (set_user_data (<[actor := qid]> (user_data s)) s,
     [EditAdminMessage actor
        (EditPrompt qid (has_media entry)
           (if has_media entry then caption entry
            else str_or (Some (text entry)) "(empty)"))])
  else if String.eqb action "cancel_edit" then
    (set_user_data (delete actor (user_data s)) s,
     [EditAdminMessage actor EditCancelled])
  else if String.eqb action "reject" then
    (set_queue (delete qid (queue s)) s,
     [EditAdminMessage actor (RejectedBanner qid);
      SendMessage (Chat (chat_id entry)) RejectedNotice])
  else if String.eqb action "approve" then
    let done :=
      [EditAdminMessage actor (ApprovedBanner qid);
       SendMessage (Chat (chat_id entry)) ApprovedNotice] in
    (set_queue (delete qid (queue s)) s,
     match publish entry with
     | Some eff =>
       if publish_ok env then eff :: done
       else [EditAdminMessage actor (ErrorPosting qid)]
     | None => done
     end)
  else (s, []).

Definition callback_handler (env : Env) (q : CallbackQuery) (s : State)
  : State * list Effect :=
  match cb_lookup q s with
  | Stop effects => (s, AnswerQuery :: effects)
  | Hit action qid entry =>
    let '(s', effects) := cb_apply env q action qid entry s in
    (s', AnswerQuery :: effects)
  end.

End Handlers.

(** ** Notions used in the statements *)

(** A timestamp lies within the trailing window ending at [now]: it is later
    than [now] minus the window length. *)
Definition within_window (now ts : Z) : Prop :=
  now - timedelta_seconds RATE_LIMIT_WINDOW < ts.

(** How many of the timestamps in [l] lie within the trailing window. *)
Definition count_within (now : Z) (l : list Z) : nat :=
  length (List.filter (fun ts => now - timedelta_seconds RATE_LIMIT_WINDOW <? ts) l).

(** The override when there is a non-empty one, otherwise the original. *)
Definition chosen (override : option string) (original : string) (c : string) : Prop :=
  (∀ o, override = Some o → o ≠ "" → c = o) ∧
  (override = None ∨ override = Some "" → c = original).

(** The caption argument of a media send: [None] stands for no caption. *)
Definition caption_arg (c : string) : option string :=
  match c with
  | EmptyString => None
  | _ => Some c
  end.

(** The initial state of the module (lines 36-41). *)
Definition initial_state : State :=
  {| queue := ∅; _next_qid := 1; user_submissions := ∅; user_data := ∅ |}.

(** *** Sample data for the examples *)

Definition sample_admins : list Z := [100; 200].

Definition text_message (from : Z) (body : string) : Message :=
  {| msg_chat_id := from; msg_chat_type := "private"; msg_message_id := 1;
     msg_from_id := from; msg_first_name := Some "Sam"; msg_username := None;
     msg_text := Some body; msg_caption := None; msg_photo := [];
     msg_video := None; msg_document := None; msg_voice := None |}.

Definition photo_message (from : Z) (cap : option string) : Message :=
  {| msg_chat_id := from; msg_chat_type := "private"; msg_message_id := 1;
     msg_from_id := from; msg_first_name := Some "Sam"; msg_username := None;
     msg_text := None; msg_caption := cap; msg_photo := ["small"; "large"];
     msg_video := None; msg_document := None; msg_voice := None |}.

(** An environment in which every clock reading is [t] and every guarded
    send succeeds. *)
Definition env_at (t : Z) : Env :=
  {| now_check := t; now_entry := t; now_append := t;
     admin_sent := fun admin => Some (admin + 1000);
     edit_ok := true; publish_ok := true |}.

Definition env_publish_fails (t : Z) : Env :=
  {| now_check := t; now_entry := t; now_append := t;
     admin_sent := fun admin => Some (admin + 1000);
     edit_ok := true; publish_ok := false |}.

Definition press (actor : Z) (action : string) (qid : Z) : CallbackQuery :=
  {| cq_from_id := actor; cq_data := Some (action, qid) |}.

(** Running a list of handler steps, discarding the effects. *)
Definition after (s : State) (steps : list (State → State * list Effect)) : State :=
  fold_left (fun st step => fst (step st)) steps s.

(** One pending text submission "hello" from user 7. *)
Definition one_pending : State :=
  after initial_state [handle_private_message sample_admins (env_at 0) (text_message 7 "hello")].

(** Three submissions from user 7, all at clock reading 0. *)
Definition three_instant : State :=
  after initial_state
    [handle_private_message sample_admins (env_at 0) (text_message 7 "a");
     handle_private_message sample_admins (env_at 0) (text_message 7 "b");
     handle_private_message sample_admins (env_at 0) (text_message 7 "c")].

(** The queue of [one_pending] after moderator 100 pressed Edit on
    submission 1 and sent "hello world". *)
Definition edited_pending : State :=
  after one_pending
    [callback_handler sample_admins (env_at 1) (press 100 "edit" 1);
     handle_private_message sample_admins (env_at 2) (text_message 100 "hello world")].

(** Moderator 100 has three submissions of their own recorded at clock
    reading 0 and has then pressed Edit on submission 1. *)
Definition moderator_editing_after_three : State :=
  after initial_state
    [handle_private_message sample_admins (env_at 0) (text_message 100 "a");
     handle_private_message sample_admins (env_at 0) (text_message 100 "b");
     handle_private_message sample_admins (env_at 0) (text_message 100 "c");
     callback_handler sample_admins (env_at 1) (press 100 "edit" 1)].

(** Submission 1 pending, moderator 100 in an edit session on it. *)
Definition editing_pending : State :=
  after one_pending [callback_handler sample_admins (env_at 1) (press 100 "edit" 1)].

(** The entry after an edit with payload [new_text]. *)
Definition edited_entry (new_text : string) (entry : Entry) : Entry :=
  if has_media entry
  then set_edited_caption (Some new_text) entry
  else set_edited_text (Some new_text) entry.

(** ** The [/queue] command (lines 521-535) *)

(** One line of the listing:
    ["{qid}: {sender} — {'media' if e['has_media'] else 'text'}; {preview}"]. *)
Record QueueLine := {
  line_qid : Z;
  line_sender : string;
  line_media : bool;
  line_preview : string
}.

Inductive QueueReply :=
  | NotAllowed                                   (* "Not allowed." *)
  | NoPendingSubmissions                         (* "No pending submissions." *)
  | PendingList (total : nat) (lines : list QueueLine).
                                                 (* "Queue Statistics: Total: {len(queue)}/50 ... Pending submissions: ..." *)

(** [(e["text"] or e["caption"] or "")[:50] + ("…" if len(...) > 50 else "")];
    the length and the cut are in characters. *)
Definition queue_preview (e : Entry) : string :=
  let content := str_or (Some (text e)) (str_or (Some (caption e)) "") in
  (str_take 50 content
   ++ (if (50 <? str_len content)%nat then "…" else ""))%string.

Definition queue_line (item : Z * Entry) : QueueLine :=
  {| line_qid := item.1; line_sender := sender_name item.2;
     line_media := has_media item.2; line_preview := queue_preview item.2 |}.

(** The order of [sorted(queue.items())]: tuples compare by their first
    component, the id, and ids are distinct. *)
Definition item_le (a b : Z * Entry) : Prop := a.1 ≤ b.1.

#[global] Instance item_le_dec : RelDecision item_le := λ a b, Z_le_dec a.1 b.1.

#[global] Instance item_le_trans : Transitive item_le.
Proof. intros x y z. unfold item_le. lia. Qed.

#[global] Instance item_le_total : Total item_le.
Proof. intros x y. unfold item_le. lia. Qed.

(** [queue_cmd]; it reads the queue and writes nothing. *)
Definition queue_cmd (ADMINS : list Z) (msg : Message) (s : State) : QueueReply :=
  if negb (is_admin ADMINS (msg_from_id msg)) then NotAllowed
  else if Nat.eqb (size (queue s)) 0 then NoPendingSubmissions
  else PendingList (size (queue s))
         (map queue_line (merge_sort item_le (map_to_list (queue s)))).

(** ** Updates as [main] routes them (lines 539-551)

    [main] registers [start_cmd], [queue_cmd] and [cancel_edit] as command
    handlers, [handle_private_message] for the messages of private chats and
    [callback_handler] for button presses.  [handle_edit_text] is not
    registered: it runs only when [handle_private_message] calls it.  An
    [Update] is an incoming update together with the handler it is routed
    to.

    [main] builds the application with [ApplicationBuilder().token(...)
    .build()] and registers every handler with the default settings, so the
    application takes the updates one at a time and lets the handler of one
    run to its end before it takes the next.  A run of the bot is therefore
    a sequence of updates, each handled from the state the previous one
    left. *)
Inductive Update :=
  | PrivateMessage (env : Env) (msg : Message)
  | ButtonPress (env : Env) (q : CallbackQuery)
  | CancelCommand (msg : Message)
  | QueueCommand (msg : Message)
  | StartCommand (msg : Message).

(** Who sent the update. *)
Definition actor_of (u : Update) : Z :=
  match u with
  | PrivateMessage _ msg | CancelCommand msg | QueueCommand msg | StartCommand msg =>
    msg_from_id msg
  | ButtonPress _ q => cq_from_id q
  end.

(** The state after the handler of one update has run.  [start_cmd] only
    replies and [queue_cmd] only reads. *)
Definition step (ADMINS : list Z) (u : Update) (s : State) : State :=
  match u with
  | PrivateMessage env msg => fst (handle_private_message ADMINS env msg s)
  | ButtonPress env q => fst (callback_handler ADMINS env q s)
  | CancelCommand msg => fst (cancel_edit msg s)
  | QueueCommand _ | StartCommand _ => s
  end.

Definition run (ADMINS : list Z) (updates : list Update) (s : State) : State :=
  fold_left (fun st u => step ADMINS u st) updates s.

(** The states the bot can be in: those a sequence of updates leads to from
    the initial state. *)
Definition reachable (ADMINS : list Z) (s : State) : Prop :=
  ∃ updates, run ADMINS updates initial_state = s.

(** ** Further notions used in the statements *)

(** How many queued ids are smaller than [qid]. *)
Definition ids_before (q : gmap Z Entry) (qid : Z) : nat :=
  length (List.filter (fun k => k <? qid) (map fst (map_to_list q))).

(** The admin notification ids after the loop over [admins], starting from
    [am]: each admin whose send returned gets the returned message id. *)
Definition recorded_ids (env : Env) (admins : list Z) (am : gmap Z Z) : gmap Z Z :=
  fold_left (fun m a => match admin_sent env a with
                        | Some mid => <[a := mid]> m
                        | None => m
                        end) admins am.

(** Whether the notification loop has anything to send for [msg]. *)
Definition notifiable (msg : Message) : bool :=
  truthy_str (msg_text msg) || present (media_of msg).

(** Closes a goal saying that none of the listed effects goes to the channel. *)
Ltac no_channel := repeat (constructor; [simpl; tauto|]); constructor.

(** A send to the public channel. *)
Definition to_channel (eff : Effect) : Prop :=
  match eff with
  | SendMessage Channel _ | SendMedia Channel _ _ _ => True
  | _ => False
  end.

(** The entry is the snapshot of its message, at most the override of its
    own kind is set, and no override is empty. *)
Definition entry_wf (ADMINS : list Z) (e : Entry) : Prop :=
  has_media e = msg_has_media (message_obj e) ∧
  text e = str_or (msg_text (message_obj e)) "" ∧
  caption e = str_or (msg_caption (message_obj e)) "" ∧
  sender_id e = msg_from_id (message_obj e) ∧
  chat_id e = msg_chat_id (message_obj e) ∧
  msg_chat_type (message_obj e) = "private" ∧
  (has_media e = true → edited_text e = None) ∧
  (has_media e = false → edited_caption e = None) ∧
  edited_text e ≠ Some "" ∧
  edited_caption e ≠ Some "" ∧
  (∀ a mid, admin_messages e !! a = Some mid → is_admin ADMINS a = true).

(** The original content and the sender fields of two entries agree. *)
Definition same_original (e e' : Entry) : Prop :=
  text e' = text e ∧ caption e' = caption e ∧ has_media e' = has_media e ∧
  message_obj e' = message_obj e ∧ chat_id e' = chat_id e ∧
  message_id e' = message_id e ∧ sender_id e' = sender_id e ∧
  sender_name e' = sender_name e ∧ sender_username e' = sender_username e ∧
  sender_info e' = sender_info e ∧ timestamp e' = timestamp e.

(** What every reachable state satisfies. *)
Definition inv (ADMINS : list Z) (s : State) : Prop :=
  1 ≤ _next_qid s ∧
  (∀ k e, queue s !! k = Some e → 1 ≤ k < _next_qid s) ∧
  Z.of_nat (size (queue s)) ≤ MAX_QUEUE_SIZE ∧
  (∀ u, (length (submissions_of (user_submissions s) u) ≤ Z.to_nat RATE_LIMIT_COUNT)%nat) ∧
  (∀ u q, user_data s !! u = Some q →
          is_admin ADMINS u = true ∧ 1 ≤ q < _next_qid s) ∧
  (∀ k e, queue s !! k = Some e → entry_wf ADMINS e).

(** The entry with the admin notifications the loop has recorded by the time it has gone
    through [admins]. *)
Definition noted (env : Env) (msg : Message) (admins : list Z) (e : Entry) : Entry :=
  set_admin_messages
    (if notifiable msg then recorded_ids env admins (admin_messages e)
     else admin_messages e) e.

(** The entry a submission [msg] is stored as once the notification loop
    over [ADMINS] has run. *)
Definition submitted_entry (ADMINS : list Z) (env : Env) (msg : Message) : Entry :=
  {| chat_id := msg_chat_id msg;
     message_id := msg_message_id msg;
     has_media := msg_has_media msg;
     text := str_or (msg_text msg) "";
     caption := str_or (msg_caption msg) "";
     message_obj := msg;
     sender_info := format_sender_info msg;
     sender_id := msg_from_id msg;
     sender_name := str_or (msg_first_name msg) "Unknown";
     sender_username := if truthy_str (msg_username msg) then msg_username msg else None;
     edited_text := None;
     edited_caption := None;
     timestamp := now_entry env;
     admin_messages := if notifiable msg then recorded_ids env ADMINS ∅ else ∅ |}.

(** *** More sample data *)

(** A message with neither text nor media, such as a sticker. *)
Definition sticker_message (from : Z) : Message :=
  {| msg_chat_id := from; msg_chat_type := "private"; msg_message_id := 1;
     msg_from_id := from; msg_first_name := Some "Sam"; msg_username := None;
     msg_text := None; msg_caption := None; msg_photo := [];
     msg_video := None; msg_document := None; msg_voice := None |}.

(** Fifty users send one text each. *)
Definition fifty_submissions : list Update :=
  map (fun i => PrivateMessage (env_at 0) (text_message (Z.of_nat i) "x")) (seq 1 50).

Definition full_state : State := run sample_admins fifty_submissions initial_state.

(** One pending sticker from user 7. *)
Definition sticker_pending : State :=
  run sample_admins [PrivateMessage (env_at 0) (sticker_message 7)] initial_state.

(** A sticker from user 7, on which moderator 100 has opened an edit session
    and sent the replacement text "fixed". *)
Definition sticker_edited : State :=
  run sample_admins
    [PrivateMessage (env_at 0) (sticker_message 7);
     ButtonPress (env_at 1) (press 100 "edit" 1);
     PrivateMessage (env_at 2) (text_message 100 "fixed")] initial_state.

(** Submission 1 of [one_pending] rejected by moderator 100. *)
Definition one_rejected : State :=
  run sample_admins
    [PrivateMessage (env_at 0) (text_message 7 "hello");
     ButtonPress (env_at 1) (press 100 "reject" 1)] initial_state.

(** * Properties *)

(** ** Arithmetic of the rate window *)

Lemma fold_left_min_spec (xs : list Z) (x : Z) :
  let m := fold_left Z.min xs x in
  (m = x ∨ In m xs) ∧ m ≤ x ∧ ∀ y, In y xs → m ≤ y.
Proof.
  revert x. induction xs as [|y ys IH]; intros x; simpl.
  - split; [by left|]. split; [lia|]. intros ? [].
  - destruct (IH (Z.min x y)) as (Hin & Hle & Hall).
    split; [|split].
    + destruct Hin as [Heq|Hin]; [|by right; right].
      rewrite Heq. destruct (Z.min_spec x y) as [[_ ->]|[_ ->]]; [by left|by right; left].
    + lia.
    + intros z [<-|Hz]; [lia|by apply Hall].
Qed.

Lemma py_min_spec (l : list Z) :
  l ≠ [] → In (py_min l) l ∧ ∀ x, In x l → py_min l ≤ x.
Proof.
  destruct l as [|x xs]; [done|]. intros _. unfold py_min.
  destruct (fold_left_min_spec xs x) as (Hin & Hle & Hall).
  split.
  - destruct Hin as [->|Hin]; [by left|by right].
  - intros y [<-|Hy]; [done|by apply Hall].
Qed.

Lemma in_window_spec (now ts : Z) :
  in_window now ts = true ↔ within_window now ts.
Proof.
  unfold in_window, within_window. rewrite Z.ltb_lt. lia.
Qed.

Lemma count_within_retained (now : Z) (l : list Z) :
  count_within now l = length (List.filter (in_window now) l).
Proof.
  unfold count_within. f_equal. apply List.filter_ext. intros ts.
  unfold in_window. apply eq_true_iff_eq. rewrite !Z.ltb_lt. lia.
Qed.

Lemma check_rate_limit_table (now user : Z) (subs : gmap Z (list Z)) :
  snd (check_rate_limit now user subs)
  = <[user := List.filter (in_window now) (submissions_of subs user)]> subs.
Proof. unfold check_rate_limit. by case_match. Qed.

Lemma check_rate_limit_retained (now user : Z) (subs : gmap Z (list Z)) :
  submissions_of (snd (check_rate_limit now user subs)) user
  = List.filter (in_window now) (submissions_of subs user).
Proof.
  rewrite check_rate_limit_table. unfold submissions_of at 1.
  by rewrite lookup_insert_eq.
Qed.

Lemma check_rate_limit_allowed (now user : Z) (subs : gmap Z (list Z)) :
  fst (fst (check_rate_limit now user subs)) = true
  ↔ (length (List.filter (in_window now) (submissions_of subs user)) < Z.to_nat RATE_LIMIT_COUNT)%nat.
Proof.
  unfold check_rate_limit, RATE_LIMIT_COUNT.
  destruct (Z.leb_spec 3 (Z.of_nat (length (List.filter (in_window now) (submissions_of subs user)))));
    simpl; split; intros; try done; lia.
Qed.

(** C6: the limiter denies exactly when at least [RATE_LIMIT_COUNT] of the
    submitter's recorded timestamps lie within the trailing window; the
    retained list holds exactly those timestamps; and on a denial the wait is
    [oldest + W - now] floored to whole seconds, which is never negative,
    where [oldest] is the oldest retained timestamp. *)
Theorem rate_limit_decision (now user : Z) (subs : gmap Z (list Z)) :
  let result := check_rate_limit now user subs in
  let denied := negb (fst (fst result)) in
  let wait_seconds := snd (fst result) in
  let retained := submissions_of (snd result) user in
  (∀ ts, In ts retained ↔ In ts (submissions_of subs user) ∧ within_window now ts) ∧
  (denied = true
   ↔ (Z.to_nat RATE_LIMIT_COUNT ≤ count_within now (submissions_of subs user))%nat) ∧
  (denied = true →
   ∃ oldest, In oldest retained ∧ (∀ ts, In ts retained → oldest ≤ ts) ∧
     wait_seconds = (oldest + timedelta_seconds RATE_LIMIT_WINDOW - now) / usec_per_sec ∧
     0 ≤ wait_seconds).
Proof.
  cbv zeta. rewrite check_rate_limit_retained, count_within_retained.
  set (kept := List.filter (in_window now) (submissions_of subs user)).
  split; [|split].
  - intros ts. unfold kept. rewrite filter_In, in_window_spec. done.
  - pose proof (check_rate_limit_allowed now user subs) as Ha. fold kept in Ha.
    destruct (fst (fst (check_rate_limit now user subs))); simpl.
    + split; [done|]. intros Hle. assert (length kept < Z.to_nat RATE_LIMIT_COUNT)%nat by tauto. lia.
    + split; [|done]. intros _.
      destruct (decide (length kept < Z.to_nat RATE_LIMIT_COUNT)%nat) as [Hlt|Hge]; [|lia].
      apply Ha in Hlt. done.
  - unfold check_rate_limit. fold kept.
    destruct (Z.leb_spec RATE_LIMIT_COUNT (Z.of_nat (length kept))) as [Hle|Hlt]; simpl; [|done].
    intros _. assert (Hne : kept ≠ []).
    { intros E. rewrite E in Hle. unfold RATE_LIMIT_COUNT in Hle. simpl in Hle. lia. }
    destruct (py_min_spec kept Hne) as [Hin Hmin].
    exists (py_min kept). split; [done|]. split; [done|].
    assert (Hw : within_window now (py_min kept)).
    { unfold kept in Hin. apply filter_In in Hin as [_ Hin]. by apply in_window_spec. }
    unfold within_window in Hw. unfold int_total_seconds, usec_per_sec.
    rewrite Z.quot_div_nonneg by lia. split; [done|].
    apply Z.div_pos; lia.
Qed.

Lemma filter_length_lt {A} (f : A → bool) (l : list A) (x : A) :
  In x l → f x = false → (length (List.filter f l) < length l)%nat.
Proof.
  induction l as [|y ys IH]; [done|]. intros [->|Hin] Hx; simpl.
  - rewrite Hx. pose proof (List.filter_length_le f ys). lia.
  - specialize (IH Hin Hx). destruct (f y); simpl; lia.
Qed.

Lemma filter_all_true {A} (f : A → bool) (l : list A) :
  (∀ x, In x l → f x = true) → List.filter f l = l.
Proof.
  induction l as [|y ys IH]; [done|]. intros H. simpl.
  rewrite (H y) by (by left). f_equal. apply IH. intros x Hx. apply H. by right.
Qed.

Section Properties.

Variable ADMINS : list Z.

(** ** Shape of the handlers' replies *)

Lemma notify_admin_appends env msg qid info s effs (a : Z) :
  ∃ s' x, notify_admin env msg qid info (s, effs) a = (s', effs ++ x).
Proof.
  unfold notify_admin.
  repeat case_match; try (exists s, []; by rewrite app_nil_r); eauto.
Qed.

Lemma notify_effects_prefix env msg qid info (admins : list Z) s effs :
  ∃ more, snd (fold_left (notify_admin env msg qid info) admins (s, effs)) = effs ++ more.
Proof.
  revert s effs. induction admins as [|a rest IH]; intros s effs; cbn [fold_left].
  - exists []. by rewrite app_nil_r.
  - destruct (notify_admin_appends env msg qid info s effs a) as (s' & x & ->).
    destruct (IH s' (effs ++ x)) as [more ->]. exists (x ++ more). by rewrite app_assoc.
Qed.

Lemma handle_edit_text_not_denial env msg s :
  snd (handle_edit_text ADMINS env msg s) ≠ [ReplyText QueueIsFull] ∧
  ∀ m sec, snd (handle_edit_text ADMINS env msg s) ≠ [ReplyText (RateLimitExceeded m sec)].
Proof.
  unfold handle_edit_text. split; [|intros m sec]; repeat case_match; simpl; discriminate.
Qed.

(** What a run of [handle_private_message] does when the limiter denies. *)
Lemma handle_private_message_denied env msg s w :
  msg_chat_type msg = "private" →
  fst (check_rate_limit (now_check env) (msg_from_id msg) (user_submissions s)) = (false, w) →
  handle_private_message ADMINS env msg s
  = (set_user_submissions
       (snd (check_rate_limit (now_check env) (msg_from_id msg) (user_submissions s))) s,
     [ReplyText (RateLimitExceeded (w / 60) (w mod 60))]).
Proof.
  intros Hp Hc. unfold handle_private_message. rewrite Hp. simpl.
  destruct (check_rate_limit _ _ _) as [[a w'] subs']. simpl in *. by simplify_eq.
Qed.

(** The notification loop only writes [admin_messages] of queue entries. *)
Lemma notify_admins_frame env msg qid info (admins : list Z) s effs :
  let s' := fst (fold_left (notify_admin env msg qid info) admins (s, effs)) in
  _next_qid s' = _next_qid s ∧ user_submissions s' = user_submissions s ∧
  user_data s' = user_data s ∧
  (∀ k, is_Some (queue s' !! k) ↔ is_Some (queue s !! k)).
Proof.
  revert s effs. induction admins as [|a rest IH]; intros s effs; cbn [fold_left].
  - done.
  - assert (Hstep : ∃ s1 effs1, notify_admin env msg qid info (s, effs) a = (s1, effs1) ∧
              _next_qid s1 = _next_qid s ∧ user_submissions s1 = user_submissions s ∧
              user_data s1 = user_data s ∧
              (∀ k, is_Some (queue s1 !! k) ↔ is_Some (queue s !! k))).
    { assert (Hrec : ∀ mid,
        let s1 := match queue s !! qid with
                  | Some e => set_queue (<[qid := set_admin_messages
                                (<[a := mid]> (admin_messages e)) e]> (queue s)) s
                  | None => s
                  end in
        _next_qid s1 = _next_qid s ∧ user_submissions s1 = user_submissions s ∧
        user_data s1 = user_data s ∧
        (∀ k, is_Some (queue s1 !! k) ↔ is_Some (queue s !! k))).
      { intros mid. destruct (queue s !! qid) as [e|] eqn:He; simpl; [|done].
        repeat split; try done.
        - destruct (decide (qid = k)) as [->|Hk].
          + rewrite He. eauto.
          + by rewrite lookup_insert_ne.
        - destruct (decide (qid = k)) as [->|Hk].
          + rewrite lookup_insert_eq. eauto.
          + by rewrite lookup_insert_ne. }
      unfold notify_admin. repeat case_match; eauto 10. }
    destruct Hstep as (s1 & effs1 & -> & Hn & Hu & Hd & Hq).
    destruct (IH s1 effs1) as (Hn' & Hu' & Hd' & Hq'). cbv zeta.
    rewrite Hn', Hu', Hd', Hn, Hu, Hd. repeat split; try done.
    + intros H. apply Hq, Hq', H.
    + intros H. apply Hq', Hq, H.
Qed.

(** An admitted submission from a sender who is not in an edit session
    takes the next id, enters the queue, and has its timestamp appended
    to the sender's pruned rate window. *)
Lemma accepted_submission_records env msg s :
  let user := msg_from_id msg in
  let r := handle_private_message ADMINS env msg s in
  msg_chat_type msg = "private" →
  fst (fst (check_rate_limit (now_check env) user (user_submissions s))) = true →
  Z.of_nat (size (queue s)) < MAX_QUEUE_SIZE →
  is_admin ADMINS user && present (editing_qid (user_data s) user) = false →
  _next_qid (fst r) = _next_qid s + 1 ∧
  is_Some (queue (fst r) !! _next_qid s) ∧
  submissions_of (user_submissions (fst r)) user
  = List.filter (in_window (now_check env)) (submissions_of (user_submissions s) user)
    ++ [now_append env].
Proof.
  intros user r Hp Hallow Hroom Hedit. subst r. unfold handle_private_message.
  rewrite Hp. simpl. fold user.
  pose proof (check_rate_limit_table (now_check env) user (user_submissions s)) as Ht.
  destruct (check_rate_limit (now_check env) user (user_submissions s))
    as [[allowed w] subs']. simpl in Hallow, Ht. subst allowed subs'. simpl.
  destruct (Z.leb_spec MAX_QUEUE_SIZE (Z.of_nat (size (queue s)))); [lia|].
  rewrite Hedit.
  match goal with
  | |- context [fold_left (notify_admin env msg ?qid ?info) ADMINS (?s4, ?effs)] =>
    destruct (notify_admins_frame env msg qid info ADMINS s4 effs) as (Hn & Hu & _ & Hq)
  end.
  rewrite Hn, Hu. simpl. split; [done|]. split.
  - apply Hq. simpl. rewrite lookup_insert_eq. eauto.
  - unfold submissions_of. by rewrite !lookup_insert_eq.
Qed.

Lemma handle_edit_text_frame env msg s :
  _next_qid (fst (handle_edit_text ADMINS env msg s)) = _next_qid s ∧
  user_submissions (fst (handle_edit_text ADMINS env msg s)) = user_submissions s.
Proof. unfold handle_edit_text. repeat case_match; done. Qed.

(** No rate window ever holds more than [RATE_LIMIT_COUNT] timestamps: a
    timestamp is appended only after the limiter has found fewer than that
    many in the pruned window. *)
Lemma window_never_exceeds_limit env msg s :
  (∀ u, (length (submissions_of (user_submissions s) u) ≤ Z.to_nat RATE_LIMIT_COUNT)%nat) →
  ∀ u, (length (submissions_of
                  (user_submissions (fst (handle_private_message ADMINS env msg s))) u)
        ≤ Z.to_nat RATE_LIMIT_COUNT)%nat.
Proof.
  intros Hinv u. unfold handle_private_message.
  destruct (negb (msg_chat_type msg =? "private")%string); [apply Hinv|].
  set (user := msg_from_id msg).
  pose proof (check_rate_limit_table (now_check env) user (user_submissions s)) as Ht.
  pose proof (check_rate_limit_allowed (now_check env) user (user_submissions s)) as Hallow.
  set (kept := List.filter (in_window (now_check env))
                 (submissions_of (user_submissions s) user)) in *.
  assert (Hkept : (length kept ≤ Z.to_nat RATE_LIMIT_COUNT)%nat).
  { pose proof (List.filter_length_le (in_window (now_check env))
                  (submissions_of (user_submissions s) user)).
    specialize (Hinv user). unfold kept. lia. }
  assert (Hpruned : (length (submissions_of (<[user := kept]> (user_submissions s)) u)
                     ≤ Z.to_nat RATE_LIMIT_COUNT)%nat).
  { unfold submissions_of. destruct (decide (user = u)) as [->|Hne].
    - by rewrite lookup_insert_eq.
    - rewrite lookup_insert_ne by done. apply Hinv. }
  destruct (check_rate_limit (now_check env) user (user_submissions s))
    as [[allowed w] subs']. simpl in Ht, Hallow. subst subs'.
  destruct allowed; simpl; [|done].
  destruct (MAX_QUEUE_SIZE <=? _); [done|].
  destruct (is_admin ADMINS user && _).
  - destruct (truthy_str (msg_text msg)); [|done].
    destruct (handle_edit_text_frame env msg
                (set_user_submissions (<[user := kept]> (user_submissions s)) s)) as [_ ->].
    done.
  - match goal with
    | |- context [fold_left (notify_admin env msg ?qid ?info) ADMINS (?s4, ?effs)] =>
      destruct (notify_admins_frame env msg qid info ADMINS s4 effs) as (_ & -> & _)
    end.
    simpl. unfold submissions_of at 1. destruct (decide (user = u)) as [<-|Hne].
    + rewrite lookup_insert_eq. simpl. unfold submissions_of.
      rewrite lookup_insert_eq. simpl. rewrite length_app. simpl.
      assert (length kept < Z.to_nat RATE_LIMIT_COUNT)%nat by (by apply Hallow). lia.
    + rewrite lookup_insert_ne by done. exact Hpruned.
Qed.

(** ** Rate limiting seen from the submitter *)

(** C3 (amended): once [RATE_LIMIT_COUNT] submissions are recorded and the
    next call falls within their window, the call is answered with the
    rate-limit reply; the wait is the whole-second floor of the time until
    the oldest entry leaves the window, so it lies between 0 and the window
    length and is positive exactly when a whole second remains; and the
    limiter admits any retry made once [wait + 1] seconds have passed. *)
Theorem rate_limit_wait_and_retry (env : Env) (msg : Message) (s : State) :
  let user := msg_from_id msg in
  let now := now_check env in
  let recorded := submissions_of (user_submissions s) user in
  let r := handle_private_message ADMINS env msg s in
  msg_chat_type msg = "private" →
  length recorded = Z.to_nat RATE_LIMIT_COUNT →
  (∀ ts, In ts recorded → ts ≤ now ∧ within_window now ts) →
  ∃ w oldest,
    In oldest recorded ∧ (∀ ts, In ts recorded → oldest ≤ ts) ∧
    w = (oldest + timedelta_seconds RATE_LIMIT_WINDOW - now) / usec_per_sec ∧
    snd r = [ReplyText (RateLimitExceeded (w / 60) (w mod 60))] ∧
    0 ≤ w ≤ RATE_LIMIT_WINDOW ∧
    (0 < w ↔ now - oldest ≤ timedelta_seconds (RATE_LIMIT_WINDOW - 1)) ∧
    ∀ now', now + timedelta_seconds (w + 1) ≤ now' →
      fst (fst (check_rate_limit now' user (user_submissions (fst r)))) = true.
Proof.
  intros user now recorded r Hp Hlen Hwin.
  assert (Hkept : List.filter (in_window now) recorded = recorded).
  { apply filter_all_true. intros ts Hts. apply in_window_spec. by apply Hwin. }
  assert (Hne : recorded ≠ []).
  { intros E. rewrite E in Hlen. vm_compute in Hlen. done. }
  destruct (py_min_spec recorded Hne) as [Hin Hmin].
  set (oldest := py_min recorded) in *.
  destruct (Hwin oldest Hin) as [Hpast Hw]. unfold within_window in Hw.
  set (w := (oldest + timedelta_seconds RATE_LIMIT_WINDOW - now) / usec_per_sec).
  assert (Hc : fst (check_rate_limit now user (user_submissions s)) = (false, w)).
  { unfold check_rate_limit. fold recorded. rewrite Hkept, Hlen.
    unfold int_total_seconds, usec_per_sec. rewrite Z.quot_div_nonneg by lia. done. }
  assert (Ht : snd (check_rate_limit now user (user_submissions s))
               = <[user := recorded]> (user_submissions s)).
  { rewrite check_rate_limit_table. fold recorded. by rewrite Hkept. }
  pose proof (handle_private_message_denied env msg s w Hp Hc) as Hr.
  fold r in Hr. fold user now in Hr. rewrite Ht in Hr.
  assert (Hfloor : w * usec_per_sec ≤ oldest + timedelta_seconds RATE_LIMIT_WINDOW - now
                   < (w + 1) * usec_per_sec).
  { unfold w, usec_per_sec.
    pose proof (Z.div_mod (oldest + timedelta_seconds RATE_LIMIT_WINDOW - now) 1000000 ltac:(lia)).
    pose proof (Z.mod_pos_bound (oldest + timedelta_seconds RATE_LIMIT_WINDOW - now) 1000000 ltac:(lia)).
    lia. }
  unfold timedelta_seconds, RATE_LIMIT_WINDOW, usec_per_sec in *.
  exists w, oldest. split; [done|]. split; [done|]. split; [done|].
  split; [by rewrite Hr|]. split; [lia|]. split; [lia|].
  intros now' Hnow'. apply check_rate_limit_allowed.
  rewrite Hr. simpl. unfold submissions_of. rewrite lookup_insert_eq. simpl.
  rewrite <- Hlen. apply (filter_length_lt _ _ oldest); [done|].
  unfold in_window, timedelta_seconds, RATE_LIMIT_WINDOW, usec_per_sec.
  apply Z.ltb_ge. lia.
Qed.

(** ** Denied submissions *)

(** C7: when the reply is the rate-limit or the queue-full message, the queue
    and the id counter are unchanged, and the submitter's rate window holds
    only timestamps that were already recorded before the call (the entries
    still within the window): nothing was recorded for the denied attempt. *)
Theorem denied_submission_leaves_no_trace (env : Env) (msg : Message) (s : State) :
  let r := handle_private_message ADMINS env msg s in
  let user := msg_from_id msg in
  (∃ m sec, snd r = [ReplyText (RateLimitExceeded m sec)]) ∨ snd r = [ReplyText QueueIsFull] →
  queue (fst r) = queue s ∧
  _next_qid (fst r) = _next_qid s ∧
  user_data (fst r) = user_data s ∧
  submissions_of (user_submissions (fst r)) user
    = List.filter (in_window (now_check env)) (submissions_of (user_submissions s) user) ∧
  (∀ ts, In ts (submissions_of (user_submissions (fst r)) user) →
         In ts (submissions_of (user_submissions s) user)) ∧
  (length (submissions_of (user_submissions (fst r)) user)
     ≤ length (submissions_of (user_submissions s) user))%nat ∧
  (∀ other, other ≠ user → user_submissions (fst r) !! other = user_submissions s !! other).
Proof.
  intros r user H.
  assert (Hpruned :
    queue (fst r) = queue s ∧ _next_qid (fst r) = _next_qid s ∧
    user_data (fst r) = user_data s ∧
    user_submissions (fst r)
    = <[user := List.filter (in_window (now_check env))
                  (submissions_of (user_submissions s) user)]> (user_submissions s)).
  { subst r. unfold handle_private_message in *.
    destruct (negb (msg_chat_type msg =? "private")%string).
    { simpl in H. destruct H as [(?&?&?)|?]; discriminate. }
    pose proof (check_rate_limit_table (now_check env) user (user_submissions s)) as Ht.
    fold user in H |- *.
    destruct (check_rate_limit (now_check env) user (user_submissions s))
      as [[allowed w] subs']. simpl in Ht. subst subs'.
    destruct allowed; simpl in *; [|done].
    destruct (MAX_QUEUE_SIZE <=? _); [done|].
    destruct (is_admin ADMINS user && _).
    - destruct (truthy_str (msg_text msg)).
      + exfalso. match type of H with
        | context [handle_edit_text ADMINS env msg ?s1] =>
          destruct (handle_edit_text_not_denial env msg s1) as [Hq Hr]
        end.
        destruct H as [(m & sec & H)|H]; [by apply (Hr m sec)|by apply Hq].
      + simpl in H. destruct H as [(?&?&?)|?]; discriminate.
    - exfalso. match type of H with
      | context [fold_left (notify_admin env msg ?qid ?info) ADMINS (?s4, ?effs)] =>
        destruct (notify_effects_prefix env msg qid info ADMINS s4 effs) as [more Hm];
        rewrite Hm in H
      end.
      simpl in H. destruct H as [(?&?&?)|?]; discriminate. }
  destruct Hpruned as (Hq & Hn & Hd & Hs).
  split; [done|]. split; [done|]. split; [done|].
  assert (Hsub : submissions_of (user_submissions (fst r)) user
                 = List.filter (in_window (now_check env))
                     (submissions_of (user_submissions s) user)).
  { rewrite Hs. unfold submissions_of at 1. by rewrite lookup_insert_eq. }
  split; [done|]. split; [|split].
  - intros ts. rewrite Hsub, filter_In. tauto.
  - rewrite Hsub. apply List.filter_length_le.
  - intros other Hne. rewrite Hs. by rewrite lookup_insert_ne.
Qed.

(** ** Moderator actions *)

Lemma callback_unauthorized env actor action qid s :
  is_admin ADMINS actor = false →
  callback_handler ADMINS env (press actor action qid) s
  = (s, [AnswerQuery; EditAdminMessage actor NotAuthorizedToModerate]).
Proof. intros Ha. unfold callback_handler, cb_lookup. simpl. by rewrite Ha. Qed.

Lemma callback_not_found env actor action qid s :
  is_admin ADMINS actor = true → queue s !! qid = None →
  callback_handler ADMINS env (press actor action qid) s
  = (s, [AnswerQuery; EditAdminMessage actor NotFoundOrHandled]).
Proof. intros Ha Hq. unfold callback_handler, cb_lookup. simpl. by rewrite Ha, Hq. Qed.

Lemma callback_reject env actor qid entry s :
  is_admin ADMINS actor = true → queue s !! qid = Some entry →
  callback_handler ADMINS env (press actor "reject" qid) s
  = (set_queue (delete qid (queue s)) s,
     [AnswerQuery; EditAdminMessage actor (RejectedBanner qid);
      SendMessage (Chat (chat_id entry)) RejectedNotice]).
Proof. intros Ha Hq. unfold callback_handler, cb_lookup. simpl. by rewrite Ha, Hq. Qed.

Lemma callback_approve env actor qid entry s :
  is_admin ADMINS actor = true → queue s !! qid = Some entry →
  callback_handler ADMINS env (press actor "approve" qid) s
  = (set_queue (delete qid (queue s)) s,
     AnswerQuery ::
     match publish entry with
     | Some eff =>
       if publish_ok env
       then [eff; EditAdminMessage actor (ApprovedBanner qid);
             SendMessage (Chat (chat_id entry)) ApprovedNotice]
       else [EditAdminMessage actor (ErrorPosting qid)]
     | None => [EditAdminMessage actor (ApprovedBanner qid);
                SendMessage (Chat (chat_id entry)) ApprovedNotice]
     end).
Proof. intros Ha Hq. unfold callback_handler, cb_lookup. simpl. by rewrite Ha, Hq. Qed.

Lemma str_or_chosen (override : option string) (original : string) :
  chosen override original (str_or override (str_or (Some original) "")).
Proof.
  assert (Ho : str_or (Some original) "" = original).
  { unfold str_or. destruct (String.eqb_spec original ""); congruence. }
  rewrite Ho. unfold chosen, str_or. split.
  - intros o -> Hne. by destruct (String.eqb_spec o "").
  - intros [->| ->]; done.
Qed.

Lemma str_or_None_caption_arg (c : string) : str_or_None c = caption_arg c.
Proof. by destruct c. Qed.

(** With an override that is not the empty string, [override or original or
    ""] is the override when one is set and the original otherwise. *)
Lemma str_or_default (override : option string) (original : string) :
  override ≠ Some "" →
  str_or override (str_or (Some original) "") = default original override.
Proof.
  intros Ho. destruct (str_or_chosen override original) as [Hc1 Hc2].
  destruct override as [t|]; simpl.
  - apply Hc1; [done|]. intros ->. done.
  - apply Hc2. by left.
Qed.

(** C8: when the send to the channel fails during the approval of a present
    submission, the approving moderator is told so, and the state is the one
    a successful publication leaves: the submission is gone from the queue. *)
Theorem failed_publish_keeps_removal
    (env_ok env_fail : Env) (actor qid : Z) (entry : Entry) (s : State) :
  is_admin ADMINS actor = true →
  queue s !! qid = Some entry →
  publish entry ≠ None →
  publish_ok env_ok = true →
  publish_ok env_fail = false →
  let failed := callback_handler ADMINS env_fail (press actor "approve" qid) s in
  let posted := callback_handler ADMINS env_ok (press actor "approve" qid) s in
  snd failed = [AnswerQuery; EditAdminMessage actor (ErrorPosting qid)] ∧
  fst failed = fst posted ∧
  queue (fst failed) = delete qid (queue s) ∧
  queue (fst failed) !! qid = None ∧
  _next_qid (fst failed) = _next_qid s ∧
  user_submissions (fst failed) = user_submissions s ∧
  user_data (fst failed) = user_data s.
Proof.
  intros Ha Hq Hp Hok Hfail failed posted. subst failed posted.
  rewrite !(callback_approve _ actor qid entry s Ha Hq). simpl.
  rewrite Hfail. destruct (publish entry); [|done].
  repeat split; try done. apply lookup_delete_eq.
Qed.

(** ** Edit sessions *)

Lemma editing_qid_lookup (d : gmap Z Z) (user qid : Z) :
  d !! user = Some qid → qid ≠ 0 → editing_qid d user = Some qid.
Proof.
  intros Hd Hne. unfold editing_qid. rewrite Hd.
  destruct (Z.eqb_spec qid 0); [done|done].
Qed.

Lemma handle_edit_text_stale env msg s qid :
  msg_chat_type msg = "private" →
  is_admin ADMINS (msg_from_id msg) = true →
  user_data s !! msg_from_id msg = Some qid → qid ≠ 0 →
  queue s !! qid = None →
  handle_edit_text ADMINS env msg s
  = (set_user_data (delete (msg_from_id msg) (user_data s)) s,
     [ReplyText SubmissionNotFound]).
Proof.
  intros Hp Ha Hd Hne Hq. unfold handle_edit_text.
  rewrite Hp, Ha, (editing_qid_lookup _ _ _ Hd Hne), Hq. done.
Qed.

Lemma handle_edit_text_applies env msg s qid entry :
  msg_chat_type msg = "private" →
  is_admin ADMINS (msg_from_id msg) = true →
  user_data s !! msg_from_id msg = Some qid → qid ≠ 0 →
  queue s !! qid = Some entry →
  fst (handle_edit_text ADMINS env msg s)
  = set_user_data (delete (msg_from_id msg) (user_data s))
      (set_queue (<[qid := edited_entry (str_or (msg_text msg) "") entry]> (queue s)) s) ∧
  ∃ view,
    snd (handle_edit_text ADMINS env msg s)
    = [SendMessage (Chat (msg_from_id msg)) view; ReplyText (EditSaved (has_media entry) qid)] ∨
    ∃ mid, snd (handle_edit_text ADMINS env msg s)
           = [EditMessage (msg_from_id msg) mid view; ReplyText UpdatedCheckAbove].
Proof.
  intros Hp Ha Hd Hne Hq. unfold handle_edit_text.
  rewrite Hp, Ha, (editing_qid_lookup _ _ _ Hd Hne), Hq. simpl.
  split; [done|]. eexists.
  destruct (admin_messages entry !! msg_from_id msg) as [mid|]; [|by left].
  destruct (mid =? 0); [by left|]. destruct (edit_ok env); [|by left].
  right. by exists mid.
Qed.

(** C10: an edit applied to a present submission writes the override field
    of the submission's kind (edited caption for media, edited text
    otherwise) and nothing else: the other override, the original text and
    caption, the sender fields, the timestamp and the remaining fields of the
    entry, and every other entry of the queue, are as before. *)
Theorem edit_changes_only_override
    (env : Env) (msg : Message) (s : State) (qid : Z) (entry : Entry) (t : string) :
  msg_chat_type msg = "private" →
  is_admin ADMINS (msg_from_id msg) = true →
  msg_text msg = Some t →
  user_data s !! msg_from_id msg = Some qid → qid ≠ 0 →
  queue s !! qid = Some entry →
  let s' := fst (handle_edit_text ADMINS env msg s) in
  ∃ entry',
    queue s' !! qid = Some entry' ∧
    (has_media entry = false →
     edited_text entry' = Some t ∧ edited_caption entry' = edited_caption entry) ∧
    (has_media entry = true →
     edited_caption entry' = Some t ∧ edited_text entry' = edited_text entry) ∧
    text entry' = text entry ∧ caption entry' = caption entry ∧
    sender_id entry' = sender_id entry ∧ sender_name entry' = sender_name entry ∧
    sender_username entry' = sender_username entry ∧
    sender_info entry' = sender_info entry ∧
    timestamp entry' = timestamp entry ∧
    chat_id entry' = chat_id entry ∧ message_id entry' = message_id entry ∧
    has_media entry' = has_media entry ∧ message_obj entry' = message_obj entry ∧
    admin_messages entry' = admin_messages entry ∧
    (∀ other, other ≠ qid → queue s' !! other = queue s !! other) ∧
    _next_qid s' = _next_qid s ∧ user_submissions s' = user_submissions s.
Proof.
  intros Hp Ha Ht Hd Hne Hq s'. subst s'.
  destruct (handle_edit_text_applies env msg s qid entry Hp Ha Hd Hne Hq) as [-> _].
  assert (Hnew : str_or (msg_text msg) "" = t).
  { rewrite Ht. unfold str_or. destruct (String.eqb_spec t ""); congruence. }
  rewrite Hnew. exists (edited_entry t entry). simpl.
  split; [apply lookup_insert_eq|].
  assert (Hothers : ∀ other, other ≠ qid →
            <[qid := edited_entry t entry]> (queue s) !! other = queue s !! other).
  { intros other Hother. apply lookup_insert_ne. congruence. }
  unfold edited_entry in *. destruct (has_media entry) eqn:Hkind; simpl;
    (split; [intros; done|]); (split; [intros; done|]); repeat split; done.
Qed.

(** C9 (amended): approving or rejecting a submission that a moderator is
    editing goes through and removes it, and the moderator's session still
    names the removed id.  The moderator's next text message goes through
    [handle_private_message], which first applies the rate-limit and
    queue-capacity checks of every private message.  If it passes them, it
    finds the submission gone, answers "not found", clears the session and
    leaves the queue and the id counter as they are.  If the limiter denies
    it, or the queue is full, the reply is that denial and the stale session
    stays. *)
Theorem removal_makes_edit_session_stale
    (env env' : Env) (actor moderator : Z) (action : string) (qid : Z)
    (entry : Entry) (msg : Message) (s : State) :
  is_admin ADMINS actor = true →
  is_admin ADMINS moderator = true →
  action = "approve" ∨ action = "reject" →
  queue s !! qid = Some entry →
  user_data s !! moderator = Some qid → qid ≠ 0 →
  msg_chat_type msg = "private" → msg_from_id msg = moderator →
  truthy_str (msg_text msg) = true →
  let r1 := callback_handler ADMINS env (press actor action qid) s in
  let r2 := handle_private_message ADMINS env' msg (fst r1) in
  let verdict :=
    fst (check_rate_limit (now_check env') moderator (user_submissions (fst r1))) in
  queue (fst r1) = delete qid (queue s) ∧
  queue (fst r1) !! qid = None ∧
  snd r1 ≠ [AnswerQuery; EditAdminMessage actor NotFoundOrHandled] ∧
  (action = "reject" →
   snd r1 = [AnswerQuery; EditAdminMessage actor (RejectedBanner qid);
             SendMessage (Chat (chat_id entry)) RejectedNotice]) ∧
  (action = "approve" → publish_ok env = true →
   In (EditAdminMessage actor (ApprovedBanner qid)) (snd r1)) ∧
  user_data (fst r1) !! moderator = Some qid ∧
  (fst verdict = true → Z.of_nat (size (queue (fst r1))) < MAX_QUEUE_SIZE →
   snd r2 = [ReplyText SubmissionNotFound] ∧
   user_data (fst r2) !! moderator = None ∧
   queue (fst r2) = queue (fst r1) ∧
   _next_qid (fst r2) = _next_qid (fst r1)) ∧
  (fst verdict = false →
   snd r2 = [ReplyText (RateLimitExceeded (snd verdict / 60) (snd verdict mod 60))] ∧
   user_data (fst r2) !! moderator = Some qid ∧
   queue (fst r2) = queue (fst r1)) ∧
  (fst verdict = true → MAX_QUEUE_SIZE ≤ Z.of_nat (size (queue (fst r1))) →
   snd r2 = [ReplyText QueueIsFull] ∧
   user_data (fst r2) !! moderator = Some qid ∧
   queue (fst r2) = queue (fst r1)).
Proof.
  intros Ha Hm Hact Hq Hd Hne Hp Hfrom Htext r1 r2 verdict. subst moderator.
  assert (H1 : fst r1 = set_queue (delete qid (queue s)) s).
  { subst r1. destruct Hact as [-> | ->].
    - by rewrite (callback_approve env actor qid entry s Ha Hq).
    - by rewrite (callback_reject env actor qid entry s Ha Hq). }
  assert (Hgone : queue (fst r1) !! qid = None).
  { rewrite H1. apply lookup_delete_eq. }
  assert (Hd1 : user_data (fst r1) !! msg_from_id msg = Some qid).
  { by rewrite H1. }
  split; [by rewrite H1|]. split; [done|]. split; [|split; [|split]].
  - subst r1. destruct Hact as [-> | ->].
    + rewrite (callback_approve env actor qid entry s Ha Hq). simpl.
      destruct (publish entry); [destruct (publish_ok env)|]; discriminate.
    + by rewrite (callback_reject env actor qid entry s Ha Hq).
  - intros ->. subst r1. by rewrite (callback_reject env actor qid entry s Ha Hq).
  - intros -> Hok. subst r1.
    rewrite (callback_approve env actor qid entry s Ha Hq). simpl. rewrite Hok.
    destruct (publish entry); simpl; tauto.
  - split; [done|]. subst r2 verdict. clear H1.
    revert Hgone Hd1. generalize (fst r1). intros s1 Hgone Hd1.
    unfold handle_private_message. rewrite Hp. simpl.
    destruct (check_rate_limit (now_check env') (msg_from_id msg)
                (user_submissions s1)) as [[allowed w] subs']. simpl.
    split; [|split].
    + intros -> Hroom. simpl.
      destruct (Z.leb_spec MAX_QUEUE_SIZE (Z.of_nat (size (queue s1)))); [lia|].
      rewrite Hm, (editing_qid_lookup _ _ _ Hd1 Hne). simpl. rewrite Htext.
      rewrite (handle_edit_text_stale env' msg (set_user_submissions subs' s1) qid
                 Hp Hm Hd1 Hne Hgone). simpl.
      split; [done|]. split; [apply lookup_delete_eq|done].
    + intros ->. done.
    + intros -> Hfull. simpl.
      destruct (Z.leb_spec MAX_QUEUE_SIZE (Z.of_nat (size (queue s1)))); [done|lia].
Qed.

(** C4 (amended): a private text message from a moderator whose edit
    session points at a present submission first passes the same rate-limit
    and queue-capacity checks as a new submission.  If the limiter denies
    it, or the queue is full, the reply is that denial and neither the
    submission nor the session changes.  Otherwise the text becomes the
    override of the submission's kind, the session is cleared, no id is
    consumed, and the moderator is told the edit was saved. *)
Theorem edit_input_routing
    (env : Env) (msg : Message) (s : State) (qid : Z) (entry : Entry) (t : string) :
  let moderator := msg_from_id msg in
  let r := handle_private_message ADMINS env msg s in
  let verdict := fst (check_rate_limit (now_check env) moderator (user_submissions s)) in
  msg_chat_type msg = "private" →
  is_admin ADMINS moderator = true →
  msg_text msg = Some t → t ≠ "" →
  user_data s !! moderator = Some qid → qid ≠ 0 →
  queue s !! qid = Some entry →
  (fst verdict = false →
   snd r = [ReplyText (RateLimitExceeded (snd verdict / 60) (snd verdict mod 60))] ∧
   queue (fst r) = queue s ∧ user_data (fst r) = user_data s) ∧
  (fst verdict = true → MAX_QUEUE_SIZE ≤ Z.of_nat (size (queue s)) →
   snd r = [ReplyText QueueIsFull] ∧
   queue (fst r) = queue s ∧ user_data (fst r) = user_data s) ∧
  (fst verdict = true → Z.of_nat (size (queue s)) < MAX_QUEUE_SIZE →
   queue (fst r) = <[qid := edited_entry t entry]> (queue s) ∧
   user_data (fst r) = delete moderator (user_data s) ∧
   _next_qid (fst r) = _next_qid s ∧
   ∃ view,
     snd r = [SendMessage (Chat moderator) view; ReplyText (EditSaved (has_media entry) qid)] ∨
     ∃ mid, snd r = [EditMessage moderator mid view; ReplyText UpdatedCheckAbove]).
Proof.
  intros moderator r verdict Hp Ha Ht Hne Hd Hq0 Hq.
  assert (Htruthy : truthy_str (msg_text msg) = true).
  { rewrite Ht. simpl. by destruct (String.eqb_spec t ""). }
  assert (Hnew : str_or (msg_text msg) "" = t).
  { rewrite Ht. unfold str_or. by destruct (String.eqb_spec t ""). }
  subst r verdict. unfold handle_private_message. rewrite Hp. simpl. fold moderator.
  destruct (check_rate_limit (now_check env) moderator (user_submissions s))
    as [[allowed w] subs']. simpl.
  split; [|split].
  - intros ->. done.
  - intros -> Hfull. simpl.
    destruct (Z.leb_spec MAX_QUEUE_SIZE (Z.of_nat (size (queue s)))); [done|lia].
  - intros -> Hroom. simpl.
    destruct (Z.leb_spec MAX_QUEUE_SIZE (Z.of_nat (size (queue s)))); [lia|].
    rewrite Ha, (editing_qid_lookup _ _ _ Hd Hq0). simpl. rewrite Htruthy.
    destruct (handle_edit_text_applies env msg (set_user_submissions subs' s) qid entry
                Hp Ha Hd Hq0 Hq) as [Hs Heff].
    rewrite Hs, Hnew. simpl. split; [done|]. split; [done|]. split; [done|]. exact Heff.
Qed.

(** ** Two moderators acting on one submission *)

Lemma cb_lookup_hit actor action qid entry s :
  is_admin ADMINS actor = true → queue s !! qid = Some entry →
  cb_lookup ADMINS (press actor action qid) s = Hit action qid entry.
Proof. intros Ha Hq. unfold cb_lookup. simpl. by rewrite Ha, Hq. Qed.

Lemma cb_lookup_miss actor action qid s :
  is_admin ADMINS actor = true → queue s !! qid = None →
  cb_lookup ADMINS (press actor action qid) s
  = Stop [EditAdminMessage actor NotFoundOrHandled].
Proof. intros Ha Hq. unfold cb_lookup. simpl. by rewrite Ha, Hq. Qed.


End Properties.

(** * Concrete runs *)

(** C3 (as stated) fails twice over.  Three submissions at clock reading 0:
    a fourth call 299.5 s later is still within the window and is denied
    with a wait of 0 seconds; a fourth call 0.5 s later is denied with a wait
    of 299 seconds, and the retry made once those 299 seconds have passed is
    denied again. *)
Lemma wait_can_be_zero_and_retry_denied :
  fst (check_rate_limit 299500000 7 (user_submissions three_instant)) = (false, 0) ∧
  snd (handle_private_message sample_admins (env_at 299500000) (text_message 7 "d")
         three_instant)
  = [ReplyText (RateLimitExceeded 0 0)] ∧
  fst (check_rate_limit 500000 7 (user_submissions three_instant)) = (false, 299) ∧
  let denied :=
    handle_private_message sample_admins (env_at 500000) (text_message 7 "d") three_instant in
  snd denied = [ReplyText (RateLimitExceeded 4 59)] ∧
  snd (handle_private_message sample_admins
         (env_at (500000 + timedelta_seconds 299)) (text_message 7 "d") (fst denied))
  = [ReplyText (RateLimitExceeded 0 0)].
Proof. vm_compute. repeat (split; [reflexivity|]). reflexivity. Qed.

(** The wait-and-retry theorem at three instant submissions and a fourth call at the same instant. *)
Lemma rate_limit_wait_and_retry_witness :
  let env := env_at 0 in
  let msg := text_message 7 "d" in
  let r := handle_private_message sample_admins env msg three_instant in
  ∃ w oldest,
    In oldest (submissions_of (user_submissions three_instant) 7) ∧
    (∀ ts, In ts (submissions_of (user_submissions three_instant) 7) → oldest ≤ ts) ∧
    w = (oldest + timedelta_seconds RATE_LIMIT_WINDOW - 0) / usec_per_sec ∧
    snd r = [ReplyText (RateLimitExceeded (w / 60) (w mod 60))] ∧
    0 ≤ w ≤ RATE_LIMIT_WINDOW ∧
    (0 < w ↔ 0 - oldest ≤ timedelta_seconds (RATE_LIMIT_WINDOW - 1)) ∧
    ∀ now', 0 + timedelta_seconds (w + 1) ≤ now' →
      fst (fst (check_rate_limit now' 7 (user_submissions (fst r)))) = true.
Proof.
  apply (rate_limit_wait_and_retry sample_admins (env_at 0) (text_message 7 "d") three_instant).
  - reflexivity.
  - vm_compute. reflexivity.
  - intros ts Hts. vm_compute in Hts.
    assert (ts = 0) as -> by (destruct Hts as [H|[H|[H|[]]]]; symmetry; exact H).
    vm_compute. split; [discriminate|reflexivity].
Defined.

(** Three instant submissions, fourth call at the same instant: the wait is
    the full window, 5 minutes 0 seconds. *)
Example fourth_instant_call_waits_full_window :
  snd (handle_private_message sample_admins (env_at 0) (text_message 7 "d") three_instant)
  = [ReplyText (RateLimitExceeded 5 0)].
Proof. vm_compute. reflexivity. Qed.

(** C4 (as stated) fails: moderator 100 has an edit session on the present
    submission 1 and has used up the rate limit; the text meant as the edit
    is answered with the rate-limit message, the submission keeps no
    override and the session stays open. *)
Lemma edit_input_can_be_rate_limited :
  let s := moderator_editing_after_three in
  let r := handle_private_message sample_admins (env_at 1000000) (text_message 100 "fixed") s in
  is_admin sample_admins 100 = true ∧
  editing_qid (user_data s) 100 = Some 1 ∧
  (text <$> queue s !! 1) = Some "a" ∧
  snd r = [ReplyText (RateLimitExceeded 4 59)] ∧
  (edited_text <$> queue (fst r) !! 1) = Some None ∧
  editing_qid (user_data (fst r)) 100 = Some 1.
Proof. vm_compute. repeat (split; [reflexivity|]). reflexivity. Qed.

(** The routing theorem at a moderator who is not rate limited: the text is applied as the override and the session is cleared. *)
Lemma edit_input_routing_witness :
  ∃ entry,
    queue editing_pending !! 1 = Some entry ∧
    let r := handle_private_message sample_admins (env_at 2) (text_message 100 "hello world")
               editing_pending in
    queue (fst r) = <[1 := edited_entry "hello world" entry]> (queue editing_pending) ∧
    user_data (fst r) = delete 100 (user_data editing_pending) ∧
    _next_qid (fst r) = _next_qid editing_pending.
Proof.
  eexists. split; [vm_compute; reflexivity|].
  pose proof (edit_input_routing sample_admins (env_at 2) (text_message 100 "hello world")
                editing_pending 1 _ "hello world"
                eq_refl eq_refl eq_refl ltac:(discriminate) eq_refl ltac:(discriminate) eq_refl)
    as (_ & _ & Happlied).
  destruct Happlied as (Hq & Hd & Hn & _).
  - vm_compute. reflexivity.
  - vm_compute. reflexivity.
  - split; [exact Hq|]. split; [exact Hd|exact Hn].
Defined.

(** The denial theorem at a fourth call half a second after three instant submissions. *)
Lemma denied_submission_leaves_no_trace_witness :
  let r := handle_private_message sample_admins (env_at 500000) (text_message 7 "d")
             three_instant in
  queue (fst r) = queue three_instant ∧
  _next_qid (fst r) = _next_qid three_instant ∧
  user_data (fst r) = user_data three_instant ∧
  submissions_of (user_submissions (fst r)) 7
    = List.filter (in_window 500000) (submissions_of (user_submissions three_instant) 7) ∧
  (∀ ts, In ts (submissions_of (user_submissions (fst r)) 7) →
         In ts (submissions_of (user_submissions three_instant) 7)) ∧
  (length (submissions_of (user_submissions (fst r)) 7)
     ≤ length (submissions_of (user_submissions three_instant) 7))%nat ∧
  (∀ other, other ≠ 7 → user_submissions (fst r) !! other
                         = user_submissions three_instant !! other).
Proof.
  apply (denied_submission_leaves_no_trace sample_admins (env_at 500000)
           (text_message 7 "d") three_instant).
  left. exists 4, 59. vm_compute. reflexivity.
Defined.

(** The failed-publication theorem at the sample queue. *)
Lemma failed_publish_keeps_removal_witness :
  let failed := callback_handler sample_admins (env_publish_fails 3)
                  (press 100 "approve" 1) one_pending in
  let posted := callback_handler sample_admins (env_at 3)
                  (press 100 "approve" 1) one_pending in
  snd failed = [AnswerQuery; EditAdminMessage 100 (ErrorPosting 1)] ∧
  fst failed = fst posted ∧
  queue (fst failed) = delete 1 (queue one_pending) ∧
  queue (fst failed) !! 1 = None ∧
  _next_qid (fst failed) = _next_qid one_pending ∧
  user_submissions (fst failed) = user_submissions one_pending ∧
  user_data (fst failed) = user_data one_pending.
Proof.
  eapply (failed_publish_keeps_removal sample_admins (env_at 3) (env_publish_fails 3)
            100 1 _ one_pending).
  - reflexivity.
  - vm_compute. reflexivity.
  - vm_compute. discriminate.
  - reflexivity.
  - reflexivity.
Defined.

(** C9 (as stated) fails: moderator 100 has sent three submissions and is
    editing submission 1 when moderator 200 rejects it.  The next text of
    moderator 100, one second after those submissions, is answered with the
    rate-limit message, not with "not found", and the session still names
    the removed submission. *)
Lemma stale_session_input_can_be_rate_limited :
  let s := fst (callback_handler sample_admins (env_at 1) (press 200 "reject" 1)
                  moderator_editing_after_three) in
  let r := handle_private_message sample_admins (env_at 1000000) (text_message 100 "fixed") s in
  is_admin sample_admins 100 = true ∧
  editing_qid (user_data moderator_editing_after_three) 100 = Some 1 ∧
  queue s !! 1 = None ∧
  editing_qid (user_data s) 100 = Some 1 ∧
  snd r = [ReplyText (RateLimitExceeded 4 59)] ∧
  snd r ≠ [ReplyText SubmissionNotFound] ∧
  editing_qid (user_data (fst r)) 100 = Some 1.
Proof.
  vm_compute. repeat (split; [reflexivity|]). split; [discriminate|reflexivity].
Qed.

(** The stale-session theorem: moderator 200 rejects submission 1 while
    moderator 100 is editing it; the moderator's next text passes the checks
    and is answered "not found". *)
Lemma removal_makes_edit_session_stale_witness :
  let r1 := callback_handler sample_admins (env_at 2) (press 200 "reject" 1) editing_pending in
  let r2 := handle_private_message sample_admins (env_at 3) (text_message 100 "hello world")
              (fst r1) in
  queue (fst r1) !! 1 = None ∧
  user_data (fst r1) !! 100 = Some 1 ∧
  snd r2 = [ReplyText SubmissionNotFound] ∧
  user_data (fst r2) !! 100 = None ∧
  queue (fst r2) = queue (fst r1).
Proof.
  pose proof (removal_makes_edit_session_stale sample_admins (env_at 2) (env_at 3)
                200 100 "reject" 1 _ (text_message 100 "hello world") editing_pending
                eq_refl eq_refl (or_intror eq_refl) eq_refl eq_refl ltac:(discriminate)
                eq_refl eq_refl eq_refl)
    as (_ & Hgone & _ & _ & _ & Hstale & Hpass & _).
  destruct Hpass as (Hreply & Hclear & Hqueue & _).
  - vm_compute. reflexivity.
  - vm_compute. reflexivity.
  - split; [exact Hgone|]. split; [exact Hstale|]. split; [exact Hreply|].
    split; [exact Hclear|exact Hqueue].
Defined.

(** The edit-frame theorem at the sample queue: only the edited text of submission 1 changes. *)
Lemma edit_changes_only_override_witness :
  let s' := fst (handle_edit_text sample_admins (env_at 2) (text_message 100 "hello world")
                   editing_pending) in
  ∃ entry',
    queue s' !! 1 = Some entry' ∧
    edited_text entry' = Some "hello world" ∧
    edited_caption entry' = None ∧
    text entry' = "hello" ∧
    sender_id entry' = 7 ∧
    timestamp entry' = 0.
Proof.
  pose proof (edit_changes_only_override sample_admins (env_at 2)
                (text_message 100 "hello world") editing_pending 1 _ "hello world"
                eq_refl eq_refl eq_refl eq_refl ltac:(discriminate) eq_refl)
    as (entry' & Hq & Htext & _ & Horig & _ & Hsender & _ & _ & _ & Hts & _).
  exists entry'. split; [exact Hq|].
  destruct (Htext eq_refl) as [Ht Hc].
  split; [exact Ht|]. split; [exact Hc|]. split; [exact Horig|].
  split; [exact Hsender|exact Hts].
Defined.


(** Both orders on the sample queue, evaluated.  Approve first: "hello" is
    published and the rejecting moderator is told the submission is already
    handled.  Reject first: the submitter is told of the rejection, the
    approving moderator is told the submission is already handled, and
    nothing is published. *)
Example approve_and_reject_in_both_orders :
  let approve := callback_handler sample_admins (env_at 2) (press 100 "approve" 1) in
  let reject := callback_handler sample_admins (env_at 2) (press 200 "reject" 1) in
  snd (approve one_pending)
  = [AnswerQuery; SendMessage Channel (Raw "hello");
     EditAdminMessage 100 (ApprovedBanner 1); SendMessage (Chat 7) ApprovedNotice] ∧
  snd (reject (fst (approve one_pending)))
  = [AnswerQuery; EditAdminMessage 200 NotFoundOrHandled] ∧
  queue (fst (reject (fst (approve one_pending)))) = ∅ ∧
  snd (reject one_pending)
  = [AnswerQuery; EditAdminMessage 200 (RejectedBanner 1);
     SendMessage (Chat 7) RejectedNotice] ∧
  snd (approve (fst (reject one_pending)))
  = [AnswerQuery; EditAdminMessage 100 NotFoundOrHandled] ∧
  queue (fst (approve (fst (reject one_pending)))) = ∅.
Proof. vm_compute. repeat (split; [reflexivity|]). reflexivity. Qed.

(** C5 (what the code does): the [/cancel] command is not gated on the
    moderator list.  User 7 is not a moderator; their [/cancel] is answered
    "Edit cancelled", not with an authorization error (the state stays as it
    is, since user 7 has no edit marker to drop), whereas the same user's
    press of the Cancel button is answered "not authorized". *)
Theorem cancel_command_from_non_moderator :
  is_admin sample_admins 7 = false ∧
  cancel_edit (text_message 7 "/cancel") one_pending
  = (one_pending, [ReplyText EditCancelled]) ∧
  callback_handler sample_admins (env_at 1) (press 7 "cancel_edit" 1) one_pending
  = (one_pending, [AnswerQuery; EditAdminMessage 7 NotAuthorizedToModerate]).
Proof. vm_compute. repeat (split; [reflexivity|]). reflexivity. Qed.

(** The edit round trip of the specification: "hello" is submitted and gets
    id 1 at position 1 of 1; moderator 100 requests an edit and sends
    "hello world"; approval publishes "hello world" and empties the queue,
    while the original text stayed in the entry until then. *)
Example edit_round_trip :
  snd (handle_private_message sample_admins (env_at 0) (text_message 7 "hello") initial_state)
  = [ReplyText (InModerationQueue (Some 1%nat) 1);
     SendMessage (Chat 100)
       (NewTextSubmission 1 (format_sender_info (text_message 7 "hello")) "hello");
     SendMessage (Chat 200)
       (NewTextSubmission 1 (format_sender_info (text_message 7 "hello")) "hello")] ∧
  (text <$> queue edited_pending !! 1) = Some "hello" ∧
  (edited_text <$> queue edited_pending !! 1) = Some (Some "hello world") ∧
  let r := callback_handler sample_admins (env_at 3) (press 100 "approve" 1) edited_pending in
  snd r = [AnswerQuery; SendMessage Channel (Raw "hello world");
           EditAdminMessage 100 (ApprovedBanner 1);
           SendMessage (Chat 7) ApprovedNotice] ∧
  queue (fst r) = ∅.
Proof. vm_compute. repeat (split; [reflexivity|]). reflexivity. Qed.

(** * Further properties *)

(** ** Characters *)

(** A cut to [n] characters has [n] characters, or all of them when the
    string has fewer. *)
Lemma str_len_take (n : nat) (s : string) :
  str_len (str_take n s) = Nat.min n (str_len s).
Proof.
  revert n. induction s as [|c rest IH]; intros n; simpl.
  - by rewrite Nat.min_0_r.
  - destruct (is_continuation c) eqn:Hc.
    + simpl. rewrite Hc. apply IH.
    + destruct n as [|n']; simpl; [done|]. by rewrite Hc, IH.
Qed.

(** A preview of at most 300 characters is shown as it is. *)
Lemma truncate_preview_short (preview : string) :
  (str_len preview ≤ 300)%nat → truncate_preview preview = preview.
Proof.
  intros Hlen. unfold truncate_preview.
  destruct (Nat.ltb_spec 300 (str_len preview)); [lia|done].
Qed.

(** ** Queue positions *)

Lemma index_of_sorted (x : Z) (l : list Z) :
  StronglySorted Z.le l → NoDup l →
  index_of x l
  = if bool_decide (x ∈ l)
    then Some (length (List.filter (fun k => k <? x) l)) else None.
Proof.
  induction l as [|y ys IH]; intros Hs Hnd; [done|].
  apply StronglySorted_inv in Hs as [Hs Hall]. apply NoDup_cons in Hnd as [Hy Hnd].
  simpl. destruct (Z.eqb_spec y x) as [->|Hne].
  - rewrite bool_decide_eq_true_2 by left. rewrite Z.ltb_irrefl. f_equal.
    assert (Hnone : List.filter (fun k => k <? x) ys = []); [|by rewrite Hnone].
    clear IH Hs Hnd. induction ys as [|z zs IHz]; [done|]. simpl.
    apply Forall_cons in Hall as [Hz Hall].
    destruct (Z.ltb_spec z x); [lia|]. apply IHz; [|done].
    intros Hin. apply Hy. by right.
  - rewrite (IH Hs Hnd). destruct (decide (x ∈ ys)) as [Hin|Hnin].
    + rewrite !bool_decide_eq_true_2; [|by right|done]. simpl.
      rewrite Forall_forall in Hall. specialize (Hall x Hin).
      destruct (Z.ltb_spec y x); [done|lia].
    + rewrite !bool_decide_eq_false_2; [done| |done].
      intros Hin. apply elem_of_cons in Hin as [->|Hin]; done.
Qed.

Lemma filter_length_Permutation {A} (f : A → bool) (l1 l2 : list A) :
  l1 ≡ₚ l2 → length (List.filter f l1) = length (List.filter f l2).
Proof.
  induction 1 as [|x l1 l2 _ IH|x y l|l1 l2 l3 _ IH1 _ IH2]; simpl.
  - done.
  - destruct (f x); simpl; lia.
  - destruct (f x), (f y); simpl; lia.
  - lia.
Qed.

Lemma sorted_keys_spec (q : gmap Z Entry) :
  let l := merge_sort Z.le (map fst (map_to_list q)) in
  StronglySorted Z.le l ∧ NoDup l ∧ l ≡ₚ map fst (map_to_list q) ∧
  ∀ k, k ∈ l ↔ is_Some (q !! k).
Proof.
  cbv zeta. pose proof (merge_sort_Permutation Z.le (map fst (map_to_list q))) as Hp.
  split; [apply (StronglySorted_merge_sort Z.le)|]. split; [|split; [done|]].
  - rewrite Hp. apply (NoDup_fst_map_to_list q).
  - intros k. rewrite Hp. rewrite list_elem_of_fmap. split.
    + intros ([k' e] & -> & Hin). apply elem_of_map_to_list in Hin. eauto.
    + intros [e He]. exists (k, e). split; [done|]. by apply elem_of_map_to_list.
Qed.

Lemma get_queue_position_rank (q : gmap Z Entry) (qid : Z) :
  get_queue_position q qid
  = if bool_decide (is_Some (q !! qid)) then Some (S (ids_before q qid)) else None.
Proof.
  unfold get_queue_position, ids_before.
  destruct (sorted_keys_spec q) as (Hs & Hnd & Hp & Hin).
  rewrite (index_of_sorted _ _ Hs Hnd).
  rewrite (filter_length_Permutation _ _ _ Hp).
  destruct (decide (is_Some (q !! qid))) as [Hq|Hq].
  - rewrite !bool_decide_eq_true_2; [done|done|by apply Hin].
  - rewrite !bool_decide_eq_false_2; [done|done|]. intros H. by apply Hq, Hin.
Qed.

Lemma ids_before_le_size (q : gmap Z Entry) (qid : Z) :
  is_Some (q !! qid) → (ids_before q qid < size q)%nat.
Proof.
  intros [e He]. unfold ids_before.
  rewrite <- (length_map_to_list q), <- (length_map fst (map_to_list q)).
  apply (filter_length_lt _ _ qid).
  - apply list_elem_of_In, list_elem_of_fmap. exists (qid, e).
    split; [done|]. by apply elem_of_map_to_list.
  - apply Z.ltb_irrefl.
Qed.

Lemma ids_before_delete (q : gmap Z Entry) (removed qid : Z) :
  is_Some (q !! removed) →
  ids_before q qid
  = ((if (removed <? qid)%Z then 1 else 0) + ids_before (delete removed q) qid)%nat.
Proof.
  intros [e He]. unfold ids_before.
  pose proof (map_to_list_delete q removed e He) as Hp.
  rewrite <- (filter_length_Permutation _ _ _ (fmap_Permutation fst _ _ Hp)).
  simpl. destruct (removed <? qid); reflexivity.
Qed.

Lemma ids_before_insert_last (q : gmap Z Entry) (qid : Z) (e : Entry) :
  (∀ k e', q !! k = Some e' → k < qid) →
  ids_before (<[qid := e]> q) qid = size q.
Proof.
  intros Hlt. assert (Hnone : q !! qid = None).
  { destruct (q !! qid) eqn:E; [|done]. specialize (Hlt _ _ E). lia. }
  unfold ids_before.
  rewrite (filter_length_Permutation _ _ _
             (fmap_Permutation fst _ _ (map_to_list_insert q qid e Hnone))).
  simpl. rewrite Z.ltb_irrefl.
  rewrite <- (length_map_to_list q), <- (length_map fst (map_to_list q)).
  f_equal. apply filter_all_true. intros k Hk.
  apply list_elem_of_In, list_elem_of_fmap in Hk as ([k' e'] & -> & Hin).
  apply elem_of_map_to_list in Hin. apply Z.ltb_lt. by apply (Hlt _ _ Hin).
Qed.

(** X1: the position of an id is its 1-based rank among the queued ids: one
    more than the number of smaller queued ids, hence between 1 and the
    queue length; an id that is not queued has no position. *)
Theorem position_is_rank (q : gmap Z Entry) (qid : Z) :
  (q !! qid = None → get_queue_position q qid = None) ∧
  (is_Some (q !! qid) →
   get_queue_position q qid = Some (S (ids_before q qid)) ∧
   (1 ≤ S (ids_before q qid) ≤ size q)%nat).
Proof.
  rewrite get_queue_position_rank. split.
  - intros Hq. rewrite bool_decide_eq_false_2; [done|]. rewrite Hq. by intros [? ?].
  - intros Hq. rewrite bool_decide_eq_true_2 by done. split; [done|].
    pose proof (ids_before_le_size q qid Hq). lia.
Qed.

(** X2: removing a queued id (what approve and reject do) moves every later
    id up by exactly one position and leaves the position of every earlier
    id as it was. *)
Theorem removal_shifts_later_positions (q : gmap Z Entry) (removed qid : Z) (p : nat) :
  is_Some (q !! removed) → qid ≠ removed →
  get_queue_position q qid = Some p →
  get_queue_position (delete removed q) qid
  = Some (if removed <? qid then (p - 1)%nat else p).
Proof.
  intros Hr Hne. rewrite !get_queue_position_rank.
  rewrite lookup_delete_ne by done.
  destruct (bool_decide (is_Some (q !! qid))); [|done].
  intros [= <-]. rewrite (ids_before_delete q removed qid Hr).
  destruct (removed <? qid); simpl; f_equal; lia.
Qed.

(** ** What one handler run does to the state *)

Lemma set_admin_messages_id (e : Entry) : set_admin_messages (admin_messages e) e = e.
Proof. by destruct e. Qed.

Lemma set_queue_id (s : State) : set_queue (queue s) s = s.
Proof. by destruct s. Qed.

Section Steps.

Variable ADMINS : list Z.

Lemma notify_admin_step env msg qid info s effs (a : Z) :
  let s1 := fst (notify_admin env msg qid info (s, effs) a) in
  _next_qid s1 = _next_qid s ∧ user_submissions s1 = user_submissions s ∧
  user_data s1 = user_data s ∧
  queue s1 !! qid = noted env msg [a] <$> queue s !! qid ∧
  ∀ k, k ≠ qid → queue s1 !! k = queue s !! k.
Proof.
  assert (Hsame : queue s !! qid = noted env msg [] <$> queue s !! qid).
  { destruct (queue s !! qid) as [e|]; [|done]. simpl. unfold noted. simpl.
    destruct (notifiable msg); by rewrite set_admin_messages_id. }
  assert (Hrec : ∀ mid,
    let s1 := match queue s !! qid with
              | Some e => set_queue (<[qid := set_admin_messages
                            (<[a := mid]> (admin_messages e)) e]> (queue s)) s
              | None => s
              end in
    _next_qid s1 = _next_qid s ∧ user_submissions s1 = user_submissions s ∧
    user_data s1 = user_data s ∧
    queue s1 !! qid = (λ e, set_admin_messages (<[a := mid]> (admin_messages e)) e)
                        <$> queue s !! qid ∧
    ∀ k, k ≠ qid → queue s1 !! k = queue s !! k).
  { intros mid. destruct (queue s !! qid) as [e|] eqn:He; simpl.
    - repeat split; try done; [apply lookup_insert_eq|].
      intros k Hk. by rewrite lookup_insert_ne.
    - by rewrite He. }
  unfold notify_admin, noted, notifiable in *. simpl.
  destruct (truthy_str (msg_text msg)); simpl in *.
  - destruct (admin_sent env a) as [mid|]; simpl; [apply Hrec|].
    repeat split; done.
  - destruct (media_of msg) as [[k f]|]; simpl in *.
    + destruct (admin_sent env a) as [mid|]; simpl; [apply Hrec|].
      repeat split; done.
    + repeat split; done.
Qed.

Lemma notify_admins_lookup env msg qid info (admins : list Z) s effs :
  let s' := fst (fold_left (notify_admin env msg qid info) admins (s, effs)) in
  queue s' !! qid = noted env msg admins <$> queue s !! qid ∧
  ∀ k, k ≠ qid → queue s' !! k = queue s !! k.
Proof.
  revert s effs. induction admins as [|a rest IH]; intros s effs; cbn [fold_left].
  - simpl. split; [|done]. destruct (queue s !! qid) as [e|]; [|done]. simpl.
    unfold noted. simpl. destruct (notifiable msg); by rewrite set_admin_messages_id.
  - pose proof (notify_admin_step env msg qid info s effs a) as (_ & _ & _ & Hq & Hk).
    destruct (notify_admin env msg qid info (s, effs) a) as [s1 effs1]. simpl in Hq, Hk.
    destruct (IH s1 effs1) as [Hq' Hk']. cbv zeta. split.
    + rewrite Hq', Hq. destruct (queue s !! qid) as [e|]; [|done]. simpl. f_equal.
      unfold noted. simpl. destruct (notifiable msg); done.
    + intros k Hne. by rewrite Hk', Hk.
Qed.

(** The state after an accepted submission. *)
Lemma accepted_state env msg s :
  let user := msg_from_id msg in
  let s' := fst (handle_private_message ADMINS env msg s) in
  let qid := _next_qid s in
  let kept := List.filter (in_window (now_check env))
                (submissions_of (user_submissions s) user) in
  msg_chat_type msg = "private" →
  fst (fst (check_rate_limit (now_check env) user (user_submissions s))) = true →
  Z.of_nat (size (queue s)) < MAX_QUEUE_SIZE →
  is_admin ADMINS user && present (editing_qid (user_data s) user) = false →
  _next_qid s' = qid + 1 ∧
  user_data s' = user_data s ∧
  user_submissions s' = <[user := kept ++ [now_append env]]> (user_submissions s) ∧
  queue s' !! qid = Some (submitted_entry ADMINS env msg) ∧
  ∀ k, k ≠ qid → queue s' !! k = queue s !! k.
Proof.
  intros user s' qid kept Hp Hallow Hroom Hedit. subst s' qid kept.
  unfold handle_private_message. rewrite Hp. simpl. fold user.
  pose proof (check_rate_limit_table (now_check env) user (user_submissions s)) as Ht.
  destruct (check_rate_limit (now_check env) user (user_submissions s))
    as [[allowed w] subs']. simpl in Hallow, Ht. subst allowed subs'. simpl.
  destruct (Z.leb_spec MAX_QUEUE_SIZE (Z.of_nat (size (queue s)))); [lia|].
  rewrite Hedit.
  match goal with
  | |- context [fold_left (notify_admin env msg ?q ?info) ADMINS (?s4, ?effs)] =>
    pose proof (notify_admins_frame env msg q info ADMINS s4 effs) as (Hn & Hu & Hd & _);
    pose proof (notify_admins_lookup env msg q info ADMINS s4 effs) as (Hq & Hk);
    remember (fold_left (notify_admin env msg q info) ADMINS (s4, effs)) as final
  end.
  simpl in Hn, Hu, Hd, Hq, Hk.
  rewrite Hn, Hu, Hd, Hq. split; [done|]. split; [done|]. split; [|split].
  - unfold submissions_of. rewrite lookup_insert_eq. simpl. by rewrite insert_insert_eq.
  - by rewrite lookup_insert_eq.
  - intros k Hne. rewrite (Hk k Hne). by rewrite lookup_insert_ne.
Qed.

Lemma edit_text_cases env msg s :
  let s' := fst (handle_edit_text ADMINS env msg s) in
  let m := msg_from_id msg in
  s' = s ∨
  (∃ qid, user_data s !! m = Some qid ∧ queue s !! qid = None ∧
          s' = set_user_data (delete m (user_data s)) s) ∨
  (∃ qid e, is_admin ADMINS m = true ∧ msg_chat_type msg = "private" ∧
            user_data s !! m = Some qid ∧ queue s !! qid = Some e ∧
            s' = set_user_data (delete m (user_data s))
                   (set_queue (<[qid := edited_entry (str_or (msg_text msg) "") e]>
                                 (queue s)) s)).
Proof.
  cbv zeta. unfold handle_edit_text.
  destruct (String.eqb_spec (msg_chat_type msg) "private") as [Hp|]; simpl; [|by left].
  destruct (is_admin ADMINS (msg_from_id msg)) eqn:Ha; simpl; [|by left].
  unfold editing_qid. destruct (user_data s !! msg_from_id msg) as [qid|] eqn:Hd; [|by left].
  destruct (Z.eqb_spec qid 0); [by left|].
  destruct (queue s !! qid) as [e|] eqn:Hq.
  - right. right. by exists qid, e.
  - right. left. by exists qid.
Qed.

Lemma callback_cases env q s :
  let s' := fst (callback_handler ADMINS env q s) in
  let actor := cq_from_id q in
  s' = s ∨
  ∃ action qid e,
    cq_data q = Some (action, qid) ∧ is_admin ADMINS actor = true ∧
    queue s !! qid = Some e ∧
    ((action = "edit" ∧ s' = set_user_data (<[actor := qid]> (user_data s)) s) ∨
     (action = "cancel_edit" ∧ s' = set_user_data (delete actor (user_data s)) s) ∨
     ((action = "reject" ∨ action = "approve") ∧
      s' = set_queue (delete qid (queue s)) s)).
Proof.
  cbv zeta. unfold callback_handler, cb_lookup.
  destruct (cq_data q) as [[action qid]|] eqn:Hdata; [|by left].
  destruct (is_admin ADMINS (cq_from_id q)) eqn:Ha; simpl; [|by left].
  destruct (queue s !! qid) as [e|] eqn:Hq; [|by left].
  unfold cb_apply.
  destruct (String.eqb_spec action "details"); [by left|].
  destruct (String.eqb_spec action "back"); [by left|].
  destruct (String.eqb_spec action "edit").
  { right. exists action, qid, e. simpl. eauto 10. }
  destruct (String.eqb_spec action "cancel_edit").
  { right. exists action, qid, e. simpl. eauto 10. }
  destruct (String.eqb_spec action "reject").
  { right. exists action, qid, e. simpl. eauto 10. }
  destruct (String.eqb_spec action "approve").
  { right. exists action, qid, e. simpl. eauto 10. }
  by left.
Qed.

Lemma accepted_queue env msg s :
  let user := msg_from_id msg in
  msg_chat_type msg = "private" →
  fst (fst (check_rate_limit (now_check env) user (user_submissions s))) = true →
  Z.of_nat (size (queue s)) < MAX_QUEUE_SIZE →
  is_admin ADMINS user && present (editing_qid (user_data s) user) = false →
  queue (fst (handle_private_message ADMINS env msg s))
  = <[_next_qid s := submitted_entry ADMINS env msg]> (queue s).
Proof.
  intros user Hp Hallow Hroom Hedit.
  destruct (accepted_state env msg s Hp Hallow Hroom Hedit) as (_ & _ & _ & Hq & Hk).
  apply map_eq. intros k. destruct (decide (k = _next_qid s)) as [->|Hne].
  - by rewrite Hq, lookup_insert_eq.
  - rewrite (Hk k Hne). by rewrite lookup_insert_ne.
Qed.

Lemma private_message_cases env msg s :
  let user := msg_from_id msg in
  let s' := fst (handle_private_message ADMINS env msg s) in
  let s1 := set_user_submissions
              (snd (check_rate_limit (now_check env) user (user_submissions s))) s in
  s' = s ∨ s' = s1 ∨
  (is_admin ADMINS user = true ∧ truthy_str (msg_text msg) = true ∧
   s' = fst (handle_edit_text ADMINS env msg s1)) ∨
  (msg_chat_type msg = "private" ∧
   fst (fst (check_rate_limit (now_check env) user (user_submissions s))) = true ∧
   Z.of_nat (size (queue s)) < MAX_QUEUE_SIZE ∧
   is_admin ADMINS user && present (editing_qid (user_data s) user) = false).
Proof.
  cbv zeta. unfold handle_private_message.
  destruct (String.eqb_spec (msg_chat_type msg) "private") as [Hp|]; simpl; [|by left].
  destruct (check_rate_limit (now_check env) (msg_from_id msg) (user_submissions s))
    as [[allowed w] subs']. simpl.
  destruct allowed; simpl; [|by right; left].
  destruct (Z.leb_spec MAX_QUEUE_SIZE (Z.of_nat (size (queue s)))); [by right; left|].
  destruct (is_admin ADMINS (msg_from_id msg)) eqn:Ha; simpl.
  - destruct (present (editing_qid (user_data s) (msg_from_id msg))) eqn:He.
    + destruct (truthy_str (msg_text msg)) eqn:Ht; [|by right; left].
      right. right. left. done.
    + right. right. right. done.
  - right. right. right. done.
Qed.

Lemma is_admin_In (a : Z) : is_admin ADMINS a = true ↔ In a ADMINS.
Proof.
  unfold is_admin. rewrite existsb_exists. split.
  - intros (x & Hin & Heq). apply Z.eqb_eq in Heq. by subst.
  - intros Hin. exists a. split; [done|apply Z.eqb_refl].
Qed.

End Steps.

Lemma recorded_ids_lookup env (admins : list Z) (am : gmap Z Z) (a : Z) :
  recorded_ids env admins am !! a
  = if bool_decide (a ∈ admins)
    then (match admin_sent env a with Some mid => Some mid | None => am !! a end)
    else am !! a.
Proof.
  revert am. induction admins as [|b rest IH]; intros am; [done|].
  unfold recorded_ids in *. cbn [fold_left]. rewrite IH.
  destruct (decide (a = b)) as [->|Hne].
  - rewrite (bool_decide_eq_true_2 (b ∈ b :: rest)) by left.
    destruct (admin_sent env b) as [mid|]; [|by destruct (bool_decide _)].
    rewrite lookup_insert_eq. by destruct (bool_decide _).
  - assert (Hiff : a ∈ rest ↔ a ∈ b :: rest).
    { rewrite elem_of_cons. split; [by right|]. by intros [?|?]. }
    rewrite (bool_decide_ext _ _ Hiff).
    destruct (admin_sent env b) as [mid|]; [|done].
    rewrite lookup_insert_ne by done. done.
Qed.

(** ** The invariant of the reachable states *)

Section Invariant.

Variable ADMINS : list Z.

Lemma inv_initial : inv ADMINS initial_state.
Proof.
  unfold inv, initial_state. simpl. split; [lia|]. split; [intros k e; by rewrite lookup_empty|].
  split; [vm_compute; discriminate|]. split; [intros u; unfold submissions_of;
    rewrite lookup_empty; simpl; lia|].
  split; intros ? ?; by rewrite lookup_empty.
Qed.

Lemma inv_prune now u s :
  inv ADMINS s →
  inv ADMINS (set_user_submissions (snd (check_rate_limit now u (user_submissions s))) s).
Proof.
  intros (Hn & Hk & Hsz & Hw & Hd & He). unfold inv. simpl.
  split; [done|]. split; [done|]. split; [done|]. split; [|done].
  intros v. rewrite check_rate_limit_table. unfold submissions_of.
  destruct (decide (u = v)) as [->|Hne].
  - rewrite lookup_insert_eq. simpl.
    pose proof (List.filter_length_le (in_window now) (submissions_of (user_submissions s) v)).
    specialize (Hw v). unfold submissions_of in *. lia.
  - rewrite lookup_insert_ne by done. apply Hw.
Qed.

Lemma inv_session_set a qid e s :
  inv ADMINS s → is_admin ADMINS a = true → queue s !! qid = Some e →
  inv ADMINS (set_user_data (<[a := qid]> (user_data s)) s).
Proof.
  intros (Hn & Hk & Hsz & Hw & Hd & He) Ha Hq. unfold inv. simpl.
  split; [done|]. split; [done|]. split; [done|]. split; [done|]. split; [|done].
  intros u q. destruct (decide (a = u)) as [->|Hne].
  - rewrite lookup_insert_eq. intros [= <-]. split; [done|]. by apply (Hk _ _ Hq).
  - rewrite lookup_insert_ne by done. apply Hd.
Qed.

Lemma inv_session_clear a s :
  inv ADMINS s → inv ADMINS (set_user_data (delete a (user_data s)) s).
Proof.
  intros (Hn & Hk & Hsz & Hw & Hd & He). unfold inv. simpl.
  split; [done|]. split; [done|]. split; [done|]. split; [done|]. split; [|done].
  intros u q Hu. apply lookup_delete_Some in Hu as [_ Hu]. by apply Hd.
Qed.

Lemma inv_remove qid s :
  inv ADMINS s → inv ADMINS (set_queue (delete qid (queue s)) s).
Proof.
  intros (Hn & Hk & Hsz & Hw & Hd & He). unfold inv. simpl.
  split; [done|]. split; [|split; [|split; [done|split; [done|]]]].
  - intros k e Hl. apply lookup_delete_Some in Hl as [_ Hl]. by apply (Hk _ _ Hl).
  - pose proof (map_size_delete qid (queue s)) as Hs.
    destruct (queue s !! qid); simpl in Hs; unfold id in Hs; lia.
  - intros k e Hl. apply lookup_delete_Some in Hl as [_ Hl]. by apply (He _ _ Hl).
Qed.

Lemma entry_wf_edited t e :
  entry_wf ADMINS e → t ≠ "" → entry_wf ADMINS (edited_entry t e).
Proof.
  intros (H1 & H2 & H3 & H4 & H5 & H6 & H7 & H8 & H9 & H10 & H11) Ht.
  unfold entry_wf, edited_entry.
  destruct (has_media e) eqn:Hm; simpl; rewrite ?Hm;
    repeat split; try done; try congruence; eauto.
Qed.

Lemma inv_edit qid e t s :
  inv ADMINS s → queue s !! qid = Some e → t ≠ "" →
  inv ADMINS (set_queue (<[qid := edited_entry t e]> (queue s)) s).
Proof.
  intros (Hn & Hk & Hsz & Hw & Hd & He) Hq Ht. unfold inv. simpl.
  split; [done|]. split; [|split; [|split; [done|split; [done|]]]].
  - intros k e' Hl. apply lookup_insert_Some in Hl as [[<- _]|[_ Hl]].
    + by apply (Hk _ _ Hq).
    + by apply (Hk _ _ Hl).
  - rewrite map_size_insert_Some by eauto. done.
  - intros k e' Hl. apply lookup_insert_Some in Hl as [[<- <-]|[_ Hl]].
    + apply entry_wf_edited; [by apply (He _ _ Hq)|done].
    + by apply (He _ _ Hl).
Qed.

Lemma truthy_str_nonempty (o : option string) :
  truthy_str o = true → str_or o "" ≠ "".
Proof.
  destruct o as [t|]; [|done]. simpl. unfold str_or.
  destruct (String.eqb_spec t ""); [done|]. done.
Qed.

Lemma inv_handle_edit_text env msg s :
  inv ADMINS s → truthy_str (msg_text msg) = true →
  inv ADMINS (fst (handle_edit_text ADMINS env msg s)).
Proof.
  intros Hinv Ht.
  destruct (edit_text_cases ADMINS env msg s) as [->|[(qid & _ & _ & ->)|(qid & e & _ & _ & _ & Hq & ->)]].
  - done.
  - by apply inv_session_clear.
  - apply (inv_session_clear _ (set_queue _ s)).
    apply inv_edit; [done|done|by apply truthy_str_nonempty].
Qed.

Lemma entry_wf_submitted env msg :
  msg_chat_type msg = "private" → entry_wf ADMINS (submitted_entry ADMINS env msg).
Proof.
  intros Hp. unfold entry_wf, submitted_entry. simpl.
  repeat split; try done.
  intros a mid. destruct (notifiable msg); [|by rewrite lookup_empty].
  rewrite recorded_ids_lookup. case_bool_decide as Hin; [|by rewrite lookup_empty].
  intros _. apply is_admin_In. by apply list_elem_of_In.
Qed.

Lemma inv_handle_private_message env msg s :
  inv ADMINS s → inv ADMINS (fst (handle_private_message ADMINS env msg s)).
Proof.
  intros Hinv.
  destruct (private_message_cases ADMINS env msg s)
    as [->|[->|[(_ & Ht & ->)|(Hp & Hallow & Hroom & Hedit)]]].
  - done.
  - by apply inv_prune.
  - apply inv_handle_edit_text; [by apply inv_prune|done].
  - pose proof (accepted_state ADMINS env msg s Hp Hallow Hroom Hedit)
      as (Hn' & Hd' & Hu' & _ & _).
    pose proof (accepted_queue ADMINS env msg s Hp Hallow Hroom Hedit) as Hq'.
    destruct Hinv as (Hn & Hk & Hsz & Hw & Hd & He).
    assert (Hfresh : queue s !! _next_qid s = None).
    { destruct (queue s !! _next_qid s) eqn:E; [|done]. specialize (Hk _ _ E). lia. }
    unfold inv. rewrite Hn', Hd', Hu', Hq'.
    split; [lia|]. split; [|split; [|split; [|split]]].
    + intros k e Hl. apply lookup_insert_Some in Hl as [[<- _]|[_ Hl]]; [lia|].
      specialize (Hk _ _ Hl). lia.
    + rewrite map_size_insert_None by done. unfold MAX_QUEUE_SIZE in *.
      rewrite Nat2Z.inj_succ. lia.
    + intros u. unfold submissions_of at 1.
      destruct (decide (msg_from_id msg = u)) as [<-|Hne].
      * rewrite lookup_insert_eq. simpl. rewrite length_app. simpl.
        apply check_rate_limit_allowed in Hallow. lia.
      * rewrite lookup_insert_ne by done. apply Hw.
    + intros u q Hu. destruct (Hd _ _ Hu) as [Ha Hr]. split; [done|lia].
    + intros k e Hl. apply lookup_insert_Some in Hl as [[_ <-]|[_ Hl]].
      * by apply entry_wf_submitted.
      * by apply (He _ _ Hl).
Qed.

Lemma inv_callback_handler env q s :
  inv ADMINS s → inv ADMINS (fst (callback_handler ADMINS env q s)).
Proof.
  intros Hinv.
  destruct (callback_cases ADMINS env q s)
    as [->|(action & qid & e & _ & Ha & Hq & [[_ ->]|[[_ ->]|[_ ->]]])].
  - done.
  - by eapply inv_session_set.
  - by apply inv_session_clear.
  - by apply inv_remove.
Qed.

Lemma inv_step u s : inv ADMINS s → inv ADMINS (step ADMINS u s).
Proof.
  intros Hinv. destruct u as [env msg|env q|msg|msg|msg]; simpl; try done.
  - by apply inv_handle_private_message.
  - by apply inv_callback_handler.
  - by apply inv_session_clear.
Qed.

Lemma run_snoc us u s : run ADMINS (us ++ [u]) s = step ADMINS u (run ADMINS us s).
Proof. unfold run. by rewrite fold_left_app. Qed.

Lemma inv_run us s : inv ADMINS s → inv ADMINS (run ADMINS us s).
Proof.
  revert s. induction us as [|u us IH]; intros s Hinv; [done|].
  simpl. apply IH. by apply inv_step.
Qed.

Lemma reachable_inv s : reachable ADMINS s → inv ADMINS s.
Proof. intros [us <-]. apply inv_run, inv_initial. Qed.

End Invariant.

(** ** How one update changes the queue, the sessions and the rate windows *)

Section Frames.

Variable ADMINS : list Z.

Lemma truthy_str_Some (o : option string) :
  truthy_str o = true → ∃ t, o = Some t ∧ t ≠ "" ∧ str_or o "" = t.
Proof.
  destruct o as [t|]; [|done]. simpl. unfold str_or.
  destruct (String.eqb_spec t ""); [done|]. intros _. by exists t.
Qed.

Lemma private_message_queue env msg s (k : Z) :
  let s' := fst (handle_private_message ADMINS env msg s) in
  let user := msg_from_id msg in
  queue s' !! k = queue s !! k ∨
  (∃ e t, is_admin ADMINS user = true ∧ user_data s !! user = Some k ∧
          queue s !! k = Some e ∧ msg_text msg = Some t ∧ t ≠ "" ∧
          queue s' !! k = Some (edited_entry t e)) ∨
  (k = _next_qid s ∧ msg_chat_type msg = "private" ∧
   is_admin ADMINS user && present (editing_qid (user_data s) user) = false ∧
   queue s' !! k = Some (submitted_entry ADMINS env msg)).
Proof.
  cbv zeta.
  destruct (private_message_cases ADMINS env msg s)
    as [->|[->|[(Ha & Ht & ->)|(Hp & Hallow & Hroom & Hedit)]]].
  - by left.
  - by left.
  - set (s1 := set_user_submissions _ s).
    destruct (edit_text_cases ADMINS env msg s1)
      as [->|[(qid & _ & _ & ->)|(qid & e & _ & _ & Hd & Hq & ->)]]; [by left|by left|].
    simpl. destruct (decide (k = qid)) as [->|Hne].
    + right. left. destruct (truthy_str_Some _ Ht) as (t & Hsome & Hne & ->).
      exists e, t. rewrite lookup_insert_eq. done.
    + left. by rewrite lookup_insert_ne.
  - destruct (accepted_state ADMINS env msg s Hp Hallow Hroom Hedit) as (_ & _ & _ & Hq & Hk).
    destruct (decide (k = _next_qid s)) as [->|Hne].
    + right. right. done.
    + left. by apply Hk.
Qed.

Lemma callback_queue env q s (k : Z) :
  let s' := fst (callback_handler ADMINS env q s) in
  queue s' !! k = queue s !! k ∨
  (is_admin ADMINS (cq_from_id q) = true ∧
   (cq_data q = Some ("approve", k) ∨ cq_data q = Some ("reject", k)) ∧
   is_Some (queue s !! k) ∧ queue s' !! k = None).
Proof.
  cbv zeta.
  destruct (callback_cases ADMINS env q s)
    as [->|(action & qid & e & Hdata & Ha & Hq & [[_ ->]|[[_ ->]|[Hact ->]]])];
    try (by left).
  simpl. destruct (decide (k = qid)) as [->|Hne].
  - right. rewrite lookup_delete_eq. split; [done|]. split; [|by eauto].
    destruct Hact as [-> | ->]; eauto.
  - left. by rewrite lookup_delete_ne.
Qed.

Lemma step_counter u s :
  _next_qid s ≤ _next_qid (step ADMINS u s) ≤ _next_qid s + 1.
Proof.
  destruct u as [env msg|env q|msg|msg|msg]; simpl; try lia.
  - destruct (private_message_cases ADMINS env msg s)
      as [->|[->|[(_ & _ & ->)|(Hp & Hallow & Hroom & Hedit)]]]; simpl; try lia.
    + destruct (handle_edit_text_frame ADMINS env msg
                  (set_user_submissions
                     (snd (check_rate_limit (now_check env) (msg_from_id msg)
                             (user_submissions s))) s)) as [-> _].
      simpl. lia.
    + destruct (accepted_state ADMINS env msg s Hp Hallow Hroom Hedit) as (-> & _). lia.
  - destruct (callback_cases ADMINS env q s)
      as [->|(action & qid & e & _ & _ & _ & [[_ ->]|[[_ ->]|[_ ->]]])]; simpl; lia.
Qed.

(** An id below the counter that is not queued is not queued after the
    next update either. *)
Lemma step_keeps_absent u s (k : Z) :
  k < _next_qid s → queue s !! k = None → queue (step ADMINS u s) !! k = None.
Proof.
  intros Hlt Hnone. destruct u as [env msg|env q|msg|msg|msg]; simpl; try done.
  - destruct (private_message_queue env msg s k)
      as [->|[(e & t & _ & _ & Hq & _)|(-> & _)]]; [done|congruence|lia].
  - destruct (callback_queue env q s k) as [->|(_ & _ & _ & ->)]; done.
Qed.

Lemma run_keeps_absent us s (k : Z) :
  k < _next_qid s → queue s !! k = None → queue (run ADMINS us s) !! k = None.
Proof.
  revert s. induction us as [|u us IH]; intros s Hlt Hnone; [done|].
  simpl. apply IH.
  - pose proof (step_counter u s). lia.
  - by apply step_keeps_absent.
Qed.

Lemma same_original_refl e : same_original e e.
Proof. by repeat split. Qed.

Lemma same_original_edited t e : same_original e (edited_entry t e).
Proof. unfold same_original, edited_entry. by destruct (has_media e) eqn:E; simpl; rewrite ?E. Qed.

Lemma same_original_trans e1 e2 e3 :
  same_original e1 e2 → same_original e2 e3 → same_original e1 e3.
Proof. unfold same_original. intros H1 H2. intuition congruence. Qed.

(** What an update can do to one queued entry. *)
Lemma step_entry u s (k : Z) (e : Entry) :
  inv ADMINS s → queue s !! k = Some e →
  queue (step ADMINS u s) !! k = Some e ∨
  (∃ t, t ≠ "" ∧ is_admin ADMINS (actor_of u) = true ∧
        user_data s !! actor_of u = Some k ∧
        queue (step ADMINS u s) !! k = Some (edited_entry t e)) ∨
  (queue (step ADMINS u s) !! k = None ∧ is_admin ADMINS (actor_of u) = true ∧
   ∃ env q, u = ButtonPress env q ∧
            (cq_data q = Some ("approve", k) ∨ cq_data q = Some ("reject", k))).
Proof.
  intros (Hn & Hk & _) Hq. destruct u as [env msg|env q|msg|msg|msg]; simpl; try (by left).
  - destruct (private_message_queue env msg s k)
      as [->|[(e' & t & Ha & Hd & Hq' & _ & Hne & ->)|(-> & _)]].
    + by left.
    + right. left. exists t. assert (e' = e) as -> by congruence. done.
    + specialize (Hk _ _ Hq). lia.
  - destruct (callback_queue env q s k) as [->|(Ha & Hdata & _ & ->)]; [by left|].
    right. right. split; [done|]. split; [done|]. by exists env, q.
Qed.

End Frames.

(** ** Invariants of the reachable states *)

Section Reachable.

Variable ADMINS : list Z.

Lemma accepted_reply env msg s :
  let user := msg_from_id msg in
  msg_chat_type msg = "private" →
  fst (fst (check_rate_limit (now_check env) user (user_submissions s))) = true →
  Z.of_nat (size (queue s)) < MAX_QUEUE_SIZE →
  is_admin ADMINS user && present (editing_qid (user_data s) user) = false →
  ∃ e0 more,
    snd (handle_private_message ADMINS env msg s)
    = ReplyText (InModerationQueue
                   (get_queue_position (<[_next_qid s := e0]> (queue s)) (_next_qid s))
                   (size (<[_next_qid s := e0]> (queue s)))) :: more.
Proof.
  intros user Hp Hallow Hroom Hedit. unfold handle_private_message.
  rewrite Hp. simpl. fold user.
  destruct (check_rate_limit (now_check env) user (user_submissions s))
    as [[allowed w] subs']. simpl in Hallow. subst allowed. simpl.
  destruct (Z.leb_spec MAX_QUEUE_SIZE (Z.of_nat (size (queue s)))); [lia|].
  rewrite Hedit.
  match goal with
  | |- context [fold_left (notify_admin env msg ?q ?info) ADMINS (?s4, ?effs)] =>
    destruct (notify_effects_prefix env msg q info ADMINS s4 effs) as [more ->]
  end.
  simpl. eauto.
Qed.

Lemma accepted_reply_last env msg s :
  let user := msg_from_id msg in
  inv ADMINS s →
  msg_chat_type msg = "private" →
  fst (fst (check_rate_limit (now_check env) user (user_submissions s))) = true →
  Z.of_nat (size (queue s)) < MAX_QUEUE_SIZE →
  is_admin ADMINS user && present (editing_qid (user_data s) user) = false →
  ∃ more,
    snd (handle_private_message ADMINS env msg s)
    = ReplyText (InModerationQueue (Some (S (size (queue s)))) (S (size (queue s))))
      :: more.
Proof.
  intros user (_ & Hk & _) Hp Hallow Hroom Hedit.
  assert (Hbelow : ∀ k e, queue s !! k = Some e → k < _next_qid s).
  { intros k e Hq. specialize (Hk _ _ Hq). lia. }
  assert (Hfresh : queue s !! _next_qid s = None).
  { destruct (queue s !! _next_qid s) eqn:E; [|done]. specialize (Hbelow _ _ E). lia. }
  destruct (accepted_reply env msg s Hp Hallow Hroom Hedit) as (e0 & more & ->).
  exists more. rewrite get_queue_position_rank, lookup_insert_eq.
  rewrite bool_decide_eq_true_2 by eauto.
  rewrite (ids_before_insert_last _ _ _ Hbelow).
  by rewrite map_size_insert_None.
Qed.

(** X3: in a reachable state an accepted submission takes the counter value
    as its id, which is larger than every queued id, so it enters at the last
    position: the reply reports position n+1 of n+1 for a queue that held n
    entries. *)
Theorem new_submission_is_last (env : Env) (msg : Message) (s : State) :
  let user := msg_from_id msg in
  let r := handle_private_message ADMINS env msg s in
  reachable ADMINS s →
  msg_chat_type msg = "private" →
  fst (fst (check_rate_limit (now_check env) user (user_submissions s))) = true →
  Z.of_nat (size (queue s)) < MAX_QUEUE_SIZE →
  is_admin ADMINS user && present (editing_qid (user_data s) user) = false →
  (∀ k e, queue s !! k = Some e → k < _next_qid s) ∧
  queue (fst r) !! _next_qid s = Some (submitted_entry ADMINS env msg) ∧
  size (queue (fst r)) = S (size (queue s)) ∧
  ∃ more,
    snd r = ReplyText (InModerationQueue (Some (S (size (queue s)))) (S (size (queue s))))
            :: more.
Proof.
  intros user r Hreach Hp Hallow Hroom Hedit.
  pose proof (reachable_inv ADMINS s Hreach) as Hinv.
  pose proof Hinv as (_ & Hk & _).
  assert (Hbelow : ∀ k e, queue s !! k = Some e → k < _next_qid s).
  { intros k e Hq. specialize (Hk _ _ Hq). lia. }
  assert (Hfresh : queue s !! _next_qid s = None).
  { destruct (queue s !! _next_qid s) eqn:E; [|done]. specialize (Hbelow _ _ E). lia. }
  split; [done|]. subst r.
  rewrite (accepted_queue ADMINS env msg s Hp Hallow Hroom Hedit).
  split; [apply lookup_insert_eq|]. split; [by apply map_size_insert_None|].
  by apply accepted_reply_last.
Qed.

(** X4: in every reachable state the queued ids lie between 1 and the id
    counter (exclusive), so the id the next submission will get is not in
    use. *)
Theorem queued_ids_below_counter (s : State) :
  reachable ADMINS s →
  (∀ k e, queue s !! k = Some e → 1 ≤ k < _next_qid s) ∧
  queue s !! _next_qid s = None.
Proof.
  intros Hreach. destruct (reachable_inv ADMINS s Hreach) as (_ & Hk & _).
  split; [done|]. destruct (queue s !! _next_qid s) eqn:E; [|done].
  specialize (Hk _ _ E). lia.
Qed.

(** X5: ids are never reused: an id that has been issued (it is below the
    counter) and is no longer queued, because its submission was approved or
    rejected, is never queued again, whatever updates follow. *)
Theorem ids_never_reused (s : State) (k : Z) (updates : list Update) :
  k < _next_qid s → queue s !! k = None →
  queue (run ADMINS updates s) !! k = None ∧
  _next_qid s ≤ _next_qid (run ADMINS updates s).
Proof.
  intros Hlt Hnone. split; [by apply run_keeps_absent|].
  clear Hlt Hnone. revert s. induction updates as [|u us IH]; intros s; simpl; [lia|].
  specialize (IH (step ADMINS u s)). pose proof (step_counter ADMINS u s). lia.
Qed.

(** X6: the queue of a reachable state never holds more than
    [MAX_QUEUE_SIZE] entries. *)
Theorem queue_never_exceeds_capacity (s : State) :
  reachable ADMINS s → Z.of_nat (size (queue s)) ≤ MAX_QUEUE_SIZE.
Proof. intros Hreach. by destruct (reachable_inv ADMINS s Hreach) as (_ & _ & H & _). Qed.

(** X7: in a reachable state no user's rate window holds more than
    [RATE_LIMIT_COUNT] timestamps. *)
Theorem rate_windows_bounded (s : State) (user : Z) :
  reachable ADMINS s →
  (length (submissions_of (user_submissions s) user) ≤ Z.to_nat RATE_LIMIT_COUNT)%nat.
Proof. intros Hreach. by destruct (reachable_inv ADMINS s Hreach) as (_ & _ & _ & H & _). Qed.

(** X8: in a reachable state only moderators hold an edit session, and a
    session names an id that has been issued (it may have been removed
    since; it is never 0). *)
Theorem sessions_belong_to_moderators (s : State) (user qid : Z) :
  reachable ADMINS s → user_data s !! user = Some qid →
  is_admin ADMINS user = true ∧ 1 ≤ qid < _next_qid s ∧
  editing_qid (user_data s) user = Some qid.
Proof.
  intros Hreach Hd.
  destruct (reachable_inv ADMINS s Hreach) as (_ & _ & _ & _ & H & _).
  destruct (H _ _ Hd) as [Ha Hr]. split; [done|]. split; [done|].
  apply editing_qid_lookup; [done|lia].
Qed.

(** X9: every queued entry of a reachable state is the snapshot of the
    private message it was created from: its text, caption, media flag,
    sender id and chat id are those of the stored message, and its recorded
    notification ids belong to moderators. *)
Theorem stored_entry_is_snapshot (s : State) (k : Z) (e : Entry) :
  reachable ADMINS s → queue s !! k = Some e →
  msg_chat_type (message_obj e) = "private" ∧
  text e = str_or (msg_text (message_obj e)) "" ∧
  caption e = str_or (msg_caption (message_obj e)) "" ∧
  has_media e = msg_has_media (message_obj e) ∧
  sender_id e = msg_from_id (message_obj e) ∧
  chat_id e = msg_chat_id (message_obj e) ∧
  (∀ a mid, admin_messages e !! a = Some mid → is_admin ADMINS a = true).
Proof.
  intros Hreach Hq.
  destruct (reachable_inv ADMINS s Hreach) as (_ & _ & _ & _ & _ & H).
  destruct (H _ _ Hq) as (H1 & H2 & H3 & H4 & H5 & H6 & _ & _ & _ & _ & H11). done.
Qed.

(** X10: in a reachable state a queued entry carries at most the override
    of its own kind (a media entry has no edited text, a text entry no
    edited caption), and an override that is set is not empty.  Hence what
    approval publishes for an entry whose message has text, or has no text
    but a photo, video, document or voice note, is the override of that kind
    whenever one is set and the original otherwise.  For an entry whose
    message has neither, nothing is published, whatever override is set. *)
Theorem overrides_exclusive_and_nonempty (s : State) (k : Z) (e : Entry) :
  reachable ADMINS s → queue s !! k = Some e →
  (has_media e = true → edited_text e = None) ∧
  (has_media e = false → edited_caption e = None) ∧
  edited_text e ≠ Some "" ∧ edited_caption e ≠ Some "" ∧
  (truthy_str (msg_text (message_obj e)) = true →
   publish e = Some (SendMessage Channel (Raw (default (text e) (edited_text e))))) ∧
  (truthy_str (msg_text (message_obj e)) = false →
   ∀ kind f, media_of (message_obj e) = Some (kind, f) →
   publish e = Some (SendMedia Channel kind f
                       (caption_arg (default (caption e) (edited_caption e))))) ∧
  (truthy_str (msg_text (message_obj e)) = false →
   media_of (message_obj e) = None →
   publish e = None).
Proof.
  intros Hreach Hq.
  destruct (reachable_inv ADMINS s Hreach) as (_ & _ & _ & _ & _ & H).
  destruct (H _ _ Hq) as (_ & _ & _ & _ & _ & _ & H7 & H8 & H9 & H10 & _).
  split; [done|]. split; [done|]. split; [done|]. split; [done|].
  unfold publish. split; [|split].
  - intros ->. by rewrite str_or_default.
  - intros -> kind f ->. by rewrite str_or_default, str_or_None_caption_arg.
  - intros -> ->. done.
Qed.

(** X11: the original content of a submission never changes while it is
    queued: if an id is queued in a reachable state and still queued after
    any further updates, the entry then has the same text, caption, media
    flag, message, sender fields and timestamp. *)
Theorem original_never_changes (s : State) (k : Z) (e e' : Entry) (updates : list Update) :
  reachable ADMINS s → queue s !! k = Some e →
  queue (run ADMINS updates s) !! k = Some e' →
  same_original e e'.
Proof.
  intros Hreach. apply reachable_inv in Hreach.
  revert s e Hreach. induction updates as [|u us IH]; intros s e Hinv Hq Hq'; simpl in Hq'.
  - assert (e' = e) as -> by congruence. apply same_original_refl.
  - pose proof (inv_step ADMINS u s Hinv) as Hinv'.
    destruct (step_entry ADMINS u s k e Hinv Hq) as [Hs|[(t & _ & _ & _ & Hs)|(Hs & _)]].
    + by apply (IH _ _ Hinv' Hs).
    + eapply same_original_trans; [apply (same_original_edited t)|].
      by apply (IH _ _ Hinv' Hs).
    + destruct Hinv as (_ & Hk & _). specialize (Hk _ _ Hq).
      pose proof (step_counter ADMINS u s).
      rewrite (run_keeps_absent ADMINS us (step ADMINS u s) k) in Hq'; [done|lia|done].
Qed.

(** X12: an update sent by a user who is not a moderator changes no queued
    entry and no edit session: every entry queued before is queued after,
    unchanged. *)
Theorem non_moderator_changes_no_entry (u : Update) (s : State) :
  reachable ADMINS s → is_admin ADMINS (actor_of u) = false →
  (∀ k e, queue s !! k = Some e → queue (step ADMINS u s) !! k = Some e) ∧
  user_data (step ADMINS u s) = user_data s.
Proof.
  intros Hreach Ha. pose proof (reachable_inv ADMINS s Hreach) as Hinv. split.
  - intros k e Hq.
    destruct (step_entry ADMINS u s k e Hinv Hq) as [Hs|[(t & _ & Ha' & _)|(_ & Ha' & _)]];
      [done|congruence|congruence].
  - destruct Hinv as (_ & _ & _ & _ & Hd & _).
    assert (Hnone : user_data s !! actor_of u = None).
    { destruct (user_data s !! actor_of u) eqn:E; [|done].
      destruct (Hd _ _ E) as [Ha' _]. congruence. }
    destruct u as [env msg|env q|msg|msg|msg]; simpl in *; try done.
    + destruct (private_message_cases ADMINS env msg s)
        as [->|[->|[(Ha' & _)|(Hp & Hallow & Hroom & Hedit)]]]; [done|done|congruence|].
      by destruct (accepted_state ADMINS env msg s Hp Hallow Hroom Hedit) as (_ & -> & _).
    + destruct (callback_cases ADMINS env q s) as [->|(? & ? & ? & _ & Ha' & _)];
        [done|congruence].
    + by apply delete_id.
Qed.

(** X13: a queued entry leaves the queue only through a moderator's approve
    or reject button for that id. *)
Theorem removal_needs_moderator (u : Update) (s : State) (k : Z) (e : Entry) :
  reachable ADMINS s → queue s !! k = Some e →
  queue (step ADMINS u s) !! k = None →
  is_admin ADMINS (actor_of u) = true ∧
  ∃ env q, u = ButtonPress env q ∧
           (cq_data q = Some ("approve", k) ∨ cq_data q = Some ("reject", k)).
Proof.
  intros Hreach Hq Hgone. pose proof (reachable_inv ADMINS s Hreach) as Hinv.
  destruct (step_entry ADMINS u s k e Hinv Hq) as [Hs|[(t & _ & _ & _ & Hs)|(_ & Ha & H)]];
    [congruence|congruence|done].
Qed.

End Reachable.

(** ** What the handlers send, and how they compose *)

Section Composition.

Variable ADMINS : list Z.

Lemma notify_effects_no_channel env msg qid info (admins : list Z) s effs :
  Forall (λ eff, ¬ to_channel eff) effs →
  Forall (λ eff, ¬ to_channel eff)
    (snd (fold_left (notify_admin env msg qid info) admins (s, effs))).
Proof.
  revert s effs. induction admins as [|a rest IH]; intros s effs Heffs; cbn [fold_left]; [done|].
  destruct (notify_admin env msg qid info (s, effs) a) as [s1 effs1] eqn:E.
  apply IH. unfold notify_admin in E.
  repeat case_match; simplify_eq; try done;
    (apply Forall_app; split; [done|]); no_channel.
Qed.

Lemma handle_edit_text_no_channel env msg s :
  Forall (λ eff, ¬ to_channel eff) (snd (handle_edit_text ADMINS env msg s)).
Proof.
  unfold handle_edit_text. repeat case_match; simpl; no_channel.
Qed.

Lemma handle_private_message_no_channel env msg s :
  Forall (λ eff, ¬ to_channel eff) (snd (handle_private_message ADMINS env msg s)).
Proof.
  unfold handle_private_message.
  destruct (negb _); [no_channel|].
  destruct (check_rate_limit _ _ _) as [[allowed w] subs'].
  destruct (negb allowed); [no_channel|].
  destruct (MAX_QUEUE_SIZE <=? _); [no_channel|].
  destruct (is_admin ADMINS _ && _).
  - destruct (truthy_str _); [apply handle_edit_text_no_channel|no_channel].
  - simpl. apply notify_effects_no_channel. no_channel.
Qed.

(** X14: nothing reaches the public channel except through approval.
    [handle_private_message] (with the edit handler it calls) and [cancel_edit]
    never send to the channel; a button press sends to the channel only when
    a moderator approves a queued submission, and what it sends is the
    content [publish] selects for that entry. *)
Theorem only_approval_reaches_channel :
  (∀ env msg s eff,
     In eff (snd (handle_private_message ADMINS env msg s)) → ¬ to_channel eff) ∧
  (∀ msg s eff, In eff (snd (cancel_edit msg s)) → ¬ to_channel eff) ∧
  (∀ env q s eff,
     In eff (snd (callback_handler ADMINS env q s)) → to_channel eff →
     is_admin ADMINS (cq_from_id q) = true ∧ publish_ok env = true ∧
     ∃ qid e, cq_data q = Some ("approve", qid) ∧ queue s !! qid = Some e ∧
              publish e = Some eff).
Proof.
  split; [|split].
  - intros env msg s eff Hin.
    pose proof (handle_private_message_no_channel env msg s) as H.
    rewrite Forall_forall in H. apply H. by apply list_elem_of_In.
  - intros msg s eff [<-|[]]. simpl. tauto.
  - intros env q s eff. unfold callback_handler, cb_lookup.
    destruct (cq_data q) as [[action qid]|] eqn:Hdata;
      [|simpl; intros [<-|[<-|[]]] []].
    destruct (is_admin ADMINS (cq_from_id q)) eqn:Ha; simpl;
      [|intros [<-|[<-|[]]] []].
    destruct (queue s !! qid) as [e|] eqn:Hq; [|simpl; intros [<-|[<-|[]]] []].
    unfold cb_apply.
    destruct (String.eqb_spec action "details"); [simpl; intros [<-|[<-|[]]] []|].
    destruct (String.eqb_spec action "back"); [simpl; intros [<-|[<-|[]]] []|].
    destruct (String.eqb_spec action "edit"); [simpl; intros [<-|[<-|[]]] []|].
    destruct (String.eqb_spec action "cancel_edit"); [simpl; intros [<-|[<-|[]]] []|].
    destruct (String.eqb_spec action "reject"); [simpl; intros [<-|[<-|[<-|[]]]] []|].
    destruct (String.eqb_spec action "approve") as [->|]; [|simpl; intros [<-|[]] []].
    simpl. destruct (publish e) as [eff0|] eqn:Hpub.
    + destruct (publish_ok env) eqn:Hok.
      * intros [<-|[<-|[<-|[<-|[]]]]] Hch; try done.
        split; [done|]. split; [done|]. by exists qid, e.
      * intros [<-|[<-|[]]] [].
    + intros [<-|[<-|[<-|[]]]] [].
Qed.

(** X15: a full queue turns a submission away, and one approval or
    rejection makes room again: in a reachable state with a full queue a
    private message that the limiter admits is answered "queue full"; once a
    moderator has approved or rejected any queued id, the same sender's next
    admitted message is accepted and enters at position 50 of 50. *)
Theorem slot_freed_by_removal
    (env env2 env3 : Env) (msg : Message) (a qid : Z) (action : string)
    (e : Entry) (s : State) :
  let user := msg_from_id msg in
  let r1 := handle_private_message ADMINS env msg s in
  let s2 := fst (callback_handler ADMINS env2 (press a action qid) (fst r1)) in
  let r3 := handle_private_message ADMINS env3 msg s2 in
  reachable ADMINS s →
  MAX_QUEUE_SIZE ≤ Z.of_nat (size (queue s)) →
  msg_chat_type msg = "private" →
  fst (fst (check_rate_limit (now_check env) user (user_submissions s))) = true →
  is_admin ADMINS a = true →
  action = "approve" ∨ action = "reject" →
  queue s !! qid = Some e →
  fst (fst (check_rate_limit (now_check env3) user (user_submissions s2))) = true →
  is_admin ADMINS user && present (editing_qid (user_data s2) user) = false →
  snd r1 = [ReplyText QueueIsFull] ∧
  queue (fst r1) = queue s ∧
  ∃ more, snd r3 = ReplyText (InModerationQueue (Some 50%nat) 50) :: more.
Proof.
  intros user r1 s2 r3 Hreach Hfull Hp Hallow Ha Hact Hq Hallow3 Hedit3.
  pose proof (reachable_inv ADMINS s Hreach) as Hinv.
  assert (Hsize : size (queue s) = 50%nat).
  { destruct Hinv as (_ & _ & Hsz & _). unfold MAX_QUEUE_SIZE in *. lia. }
  assert (Hr1 : r1 = (set_user_submissions
                        (snd (check_rate_limit (now_check env) user (user_submissions s))) s,
                      [ReplyText QueueIsFull])).
  { subst r1. unfold handle_private_message. rewrite Hp. simpl. fold user.
    destruct (check_rate_limit (now_check env) user (user_submissions s))
      as [[allowed w] subs']. simpl in Hallow. subst allowed. simpl.
    destruct (Z.leb_spec MAX_QUEUE_SIZE (Z.of_nat (size (queue s)))); [done|lia]. }
  rewrite Hr1. simpl. split; [done|]. split; [done|].
  assert (Hinv1 : inv ADMINS (fst r1)).
  { rewrite Hr1. simpl. by apply inv_prune. }
  assert (Hq1 : queue (fst r1) !! qid = Some e) by (by rewrite Hr1).
  assert (Hs2 : s2 = set_queue (delete qid (queue (fst r1))) (fst r1)).
  { subst s2. destruct Hact as [-> | ->].
    - by rewrite (callback_approve ADMINS env2 a qid e (fst r1) Ha Hq1).
    - by rewrite (callback_reject ADMINS env2 a qid e (fst r1) Ha Hq1). }
  assert (Hinv2 : inv ADMINS s2) by (rewrite Hs2; by apply inv_remove).
  assert (Hsize2 : size (queue s2) = 49%nat).
  { rewrite Hs2. simpl. rewrite map_size_delete_Some by eauto.
    rewrite Hr1. simpl. by rewrite Hsize. }
  assert (Hroom : Z.of_nat (size (queue s2)) < MAX_QUEUE_SIZE).
  { rewrite Hsize2. done. }
  destruct (accepted_reply_last ADMINS env3 msg s2 Hinv2 Hp Hallow3 Hroom Hedit3)
    as [more Hmore].
  exists more. subst r3. rewrite Hmore. by rewrite Hsize2.
Qed.

End Composition.

(** X16: pruning is lazy and harmless: a check made at an earlier time only
    drops timestamps that every later check would drop as well, so a later
    check gives the same verdict, the same wait and the same table whether or
    not the earlier check happened. *)
Theorem earlier_check_changes_no_later_result (earlier now user : Z) (subs : gmap Z (list Z)) :
  earlier ≤ now →
  check_rate_limit now user (snd (check_rate_limit earlier user subs))
  = check_rate_limit now user subs.
Proof.
  intros Hle. rewrite check_rate_limit_table.
  assert (Hf : List.filter (in_window now)
                 (List.filter (in_window earlier) (submissions_of subs user))
               = List.filter (in_window now) (submissions_of subs user)).
  { induction (submissions_of subs user) as [|ts l IH]; [done|]. simpl.
    destruct (in_window earlier ts) eqn:E1; simpl; rewrite IH; [done|].
    destruct (in_window now ts) eqn:E2; [|done].
    unfold in_window in *. apply Z.ltb_lt in E2. apply Z.ltb_ge in E1. lia. }
  assert (Hs : ∀ l, submissions_of (<[user := l]> subs) user = l).
  { intros l. unfold submissions_of. by rewrite lookup_insert_eq. }
  unfold check_rate_limit. rewrite Hs, Hf, insert_insert_eq. done.
Qed.

(** ** Buttons, sessions and views *)

Section Buttons.

Variable ADMINS : list Z.

Lemma media_of_None (msg : Message) :
  media_of msg = None ↔ msg_has_media msg = false.
Proof.
  unfold media_of, msg_has_media.
  destruct (msg_photo msg) as [|p ps] eqn:Hph; simpl.
  - destruct (msg_video msg), (msg_document msg), (msg_voice msg); simpl; split; done.
  - destruct (rev ps ++ [p]) eqn:E; [|split; done].
    by destruct (rev ps).
Qed.

(** C1 (what the code does): in a reachable state, approving a queued
    submission removes it and, the channel accepting the send, publishes its
    current content.  For a message with text that is the edited text when
    one is set and the original text otherwise; for a message without text
    that has a photo, a video, a document or a voice note it is that media
    with the edited caption when one is set and the original caption
    otherwise.  An override is never the empty string in a reachable state,
    so an override that is present is the one published.  For a message
    with neither text nor one of the four media kinds the chain of cases of
    the approve branch has no case: nothing is sent to the channel, whatever
    override is set, and the moderator and the submitter are still told that
    the submission was approved and posted. *)
Theorem approve_publishes_current_content
    (env : Env) (a k : Z) (e : Entry) (s : State) :
  reachable ADMINS s →
  is_admin ADMINS a = true →
  queue s !! k = Some e →
  publish_ok env = true →
  let r := callback_handler ADMINS env (press a "approve" k) s in
  let msg := message_obj e in
  let approved := [EditAdminMessage a (ApprovedBanner k);
                   SendMessage (Chat (chat_id e)) ApprovedNotice] in
  queue (fst r) = delete k (queue s) ∧
  queue (fst r) !! k = None ∧
  edited_text e ≠ Some "" ∧ edited_caption e ≠ Some "" ∧
  (truthy_str (msg_text msg) = true →
   snd r = AnswerQuery ::
           SendMessage Channel (Raw (default (text e) (edited_text e))) :: approved) ∧
  (truthy_str (msg_text msg) = false → ∀ kind f, media_of msg = Some (kind, f) →
   snd r = AnswerQuery ::
           SendMedia Channel kind f
             (caption_arg (default (caption e) (edited_caption e))) :: approved) ∧
  (truthy_str (msg_text msg) = false → media_of msg = None →
   snd r = AnswerQuery :: approved).
Proof.
  intros Hreach Ha Hq Hok r msg approved. subst r.
  destruct (reachable_inv ADMINS s Hreach) as (_ & _ & _ & _ & _ & Hwf).
  destruct (Hwf _ _ Hq) as (_ & _ & _ & _ & _ & _ & _ & _ & Ht & Hc & _).
  rewrite (callback_approve ADMINS env a k e s Ha Hq). simpl. rewrite Hok.
  split; [done|]. split; [apply lookup_delete_eq|]. split; [done|]. split; [done|].
  unfold publish. fold msg. split; [|split].
  - intros ->. by rewrite str_or_default.
  - intros -> kind f ->. by rewrite str_or_default, str_or_None_caption_arg.
  - intros -> ->. done.
Qed.

(** X17: approval sends something to the channel exactly when the stored
    message has text or one of the four media kinds; a photo goes out by the
    file id of its last size.  For an entry with neither, approval sends
    nothing to the channel and still reports the submission as approved and
    posted, to the moderator and to the submitter. *)
Theorem approval_of_contentless_entry
    (env : Env) (a qid : Z) (e : Entry) (s : State) :
  is_admin ADMINS a = true → queue s !! qid = Some e →
  (publish e = None
   ↔ truthy_str (msg_text (message_obj e)) = false ∧
     msg_has_media (message_obj e) = false) ∧
  (truthy_str (msg_text (message_obj e)) = false →
   ∀ sizes f, msg_photo (message_obj e) = sizes ++ [f] →
   ∃ cap, publish e = Some (SendMedia Channel Photo f cap)) ∧
  (publish e = None →
   callback_handler ADMINS env (press a "approve" qid) s
   = (set_queue (delete qid (queue s)) s,
      [AnswerQuery; EditAdminMessage a (ApprovedBanner qid);
       SendMessage (Chat (chat_id e)) ApprovedNotice])).
Proof.
  intros Ha Hq. split; [|split].
  - unfold publish. destruct (truthy_str (msg_text (message_obj e))).
    + split; [done|]. by intros [? _].
    + rewrite <- media_of_None. destruct (media_of (message_obj e)) as [[k f]|].
      * split; [done|]. by intros [_ ?].
      * done.
  - intros Ht sizes f Hph. unfold publish, media_of. rewrite Ht, Hph, rev_app_distr.
    simpl. eauto.
  - intros Hpub. rewrite (callback_approve ADMINS env a qid e s Ha Hq). by rewrite Hpub.
Qed.

(** X18: a button whose action is none of details, back, edit, cancel_edit,
    reject and approve is ignored when the id is queued: the query is
    answered, nothing is sent and the state stays as it is. *)
Theorem unknown_action_is_ignored
    (env : Env) (a qid : Z) (action : string) (e : Entry) (s : State) :
  is_admin ADMINS a = true → queue s !! qid = Some e →
  action ≠ "details" → action ≠ "back" → action ≠ "edit" →
  action ≠ "cancel_edit" → action ≠ "reject" → action ≠ "approve" →
  callback_handler ADMINS env (press a action qid) s = (s, [AnswerQuery]).
Proof.
  intros Ha Hq H1 H2 H3 H4 H5 H6. unfold callback_handler.
  rewrite (cb_lookup_hit ADMINS a action qid e s Ha Hq). unfold cb_apply.
  destruct (String.eqb_spec action "details"); [done|].
  destruct (String.eqb_spec action "back"); [done|].
  destruct (String.eqb_spec action "edit"); [done|].
  destruct (String.eqb_spec action "cancel_edit"); [done|].
  destruct (String.eqb_spec action "reject"); [done|].
  destruct (String.eqb_spec action "approve"); [done|]. done.
Qed.

(** X19: a handled submission stays handled: once a moderator has approved
    or rejected a queued id in a reachable state, then after any further
    updates every button pressed for that id by any moderator, whatever its
    action, is answered "not found or already handled" and changes
    nothing. *)
Theorem handled_submission_stays_handled
    (env env' : Env) (a b qid : Z) (action action' : string) (e : Entry)
    (s : State) (updates : list Update) :
  let s1 := step ADMINS (ButtonPress env (press a action qid)) s in
  let s2 := run ADMINS updates s1 in
  reachable ADMINS s →
  is_admin ADMINS a = true → is_admin ADMINS b = true →
  action = "approve" ∨ action = "reject" →
  queue s !! qid = Some e →
  queue s2 !! qid = None ∧
  callback_handler ADMINS env' (press b action' qid) s2
  = (s2, [AnswerQuery; EditAdminMessage b NotFoundOrHandled]).
Proof.
  intros s1 s2 Hreach Ha Hb Hact Hq.
  destruct (reachable_inv ADMINS s Hreach) as (_ & Hk & _). specialize (Hk _ _ Hq).
  assert (Hs1 : s1 = set_queue (delete qid (queue s)) s).
  { subst s1. simpl. destruct Hact as [-> | ->].
    - by rewrite (callback_approve ADMINS env a qid e s Ha Hq).
    - by rewrite (callback_reject ADMINS env a qid e s Ha Hq). }
  assert (Hgone : queue s2 !! qid = None).
  { subst s2. apply run_keeps_absent; rewrite Hs1; simpl; [lia|apply lookup_delete_eq]. }
  split; [done|]. by apply callback_not_found.
Qed.

(** X20: requesting an edit and cancelling it is a round trip.  A moderator
    without a session who presses Edit on a queued id gets a session on that
    id; pressing Edit on another queued id replaces it; and the Cancel button
    as well as the [/cancel] command bring back the state from before the
    first press. *)
Theorem edit_then_cancel_restores
    (env : Env) (a qid qid' : Z) (e e' : Entry) (cancel : Message) (s : State) :
  let s1 := fst (callback_handler ADMINS env (press a "edit" qid) s) in
  is_admin ADMINS a = true →
  queue s !! qid = Some e → queue s !! qid' = Some e' →
  user_data s !! a = None →
  msg_from_id cancel = a →
  user_data s1 !! a = Some qid ∧
  queue s1 = queue s ∧
  user_data (fst (callback_handler ADMINS env (press a "edit" qid') s1)) !! a = Some qid' ∧
  fst (callback_handler ADMINS env (press a "cancel_edit" qid) s1) = s ∧
  fst (cancel_edit cancel s1) = s.
Proof.
  intros s1 Ha Hq Hq' Hnone Hfrom.
  assert (Hs1 : s1 = set_user_data (<[a := qid]> (user_data s)) s).
  { subst s1. unfold callback_handler.
    by rewrite (cb_lookup_hit ADMINS a "edit" qid e s Ha Hq). }
  assert (Hback : set_user_data (delete a (user_data s1)) s1 = s).
  { rewrite Hs1. simpl. rewrite delete_insert_id by done. by destruct s. }
  rewrite Hs1 at 1 2. simpl. split; [apply lookup_insert_eq|]. split; [done|].
  split; [|split].
  - unfold callback_handler.
    rewrite (cb_lookup_hit ADMINS a "edit" qid' e' s1 Ha); [|by rewrite Hs1].
    simpl. apply lookup_insert_eq.
  - unfold callback_handler.
    rewrite (cb_lookup_hit ADMINS a "cancel_edit" qid e s1 Ha); [|by rewrite Hs1].
    simpl. exact Hback.
  - unfold cancel_edit. simpl. rewrite Hfrom. exact Hback.
Qed.

Lemma str_or_Some_ne (t d : string) : t ≠ "" → str_or (Some t) d = t.
Proof. intros Hne. unfold str_or. by destruct (String.eqb_spec t ""). Qed.

Lemma publish_edited_text (t : string) (e : Entry) :
  t ≠ "" → has_media e = false → truthy_str (msg_text (message_obj e)) = true →
  publish (edited_entry t e) = Some (SendMessage Channel (Raw t)).
Proof.
  intros Hne Hm Ht. unfold publish, edited_entry. rewrite Hm.
  cbn [message_obj edited_text set_edited_text]. rewrite Ht.
  by rewrite str_or_Some_ne.
Qed.

Lemma publish_edited_caption (t : string) (e : Entry) (k : MediaKind) (f : string) :
  t ≠ "" → has_media e = true → truthy_str (msg_text (message_obj e)) = false →
  media_of (message_obj e) = Some (k, f) →
  publish (edited_entry t e) = Some (SendMedia Channel k f (Some t)).
Proof.
  intros Hne Hm Ht Hmedia. unfold publish, edited_entry. rewrite Hm.
  cbn [message_obj edited_caption set_edited_caption]. rewrite Ht, Hmedia.
  rewrite str_or_Some_ne by done. unfold str_or_None.
  by destruct (String.eqb_spec t "").
Qed.

(** X21: the edit round trip.  A moderator presses Edit on a queued id and
    sends a non-empty text that passes the two admission checks; the text is
    then what a later approval publishes: as the message for a text
    submission, as the caption for a media submission.  Until the approval
    the original text and caption stay in the entry. *)
Theorem edit_round_trip_publishes_edit
    (env env2 env3 : Env) (a b qid : Z) (t : string) (e : Entry)
    (msg : Message) (s : State) :
  let s1 := fst (callback_handler ADMINS env (press a "edit" qid) s) in
  let s2 := fst (handle_private_message ADMINS env2 msg s1) in
  let r3 := callback_handler ADMINS env3 (press b "approve" qid) s2 in
  let done := [EditAdminMessage b (ApprovedBanner qid);
               SendMessage (Chat (chat_id e)) ApprovedNotice] in
  is_admin ADMINS a = true → is_admin ADMINS b = true →
  queue s !! qid = Some e → qid ≠ 0 →
  msg_chat_type msg = "private" → msg_from_id msg = a →
  msg_text msg = Some t → t ≠ "" →
  fst (fst (check_rate_limit (now_check env2) a (user_submissions s))) = true →
  Z.of_nat (size (queue s)) < MAX_QUEUE_SIZE →
  publish_ok env3 = true →
  (∃ e2, queue s2 !! qid = Some e2 ∧ text e2 = text e ∧ caption e2 = caption e) ∧
  user_data s2 !! a = None ∧
  queue (fst r3) !! qid = None ∧
  (has_media e = false → truthy_str (msg_text (message_obj e)) = true →
   snd r3 = AnswerQuery :: SendMessage Channel (Raw t) :: done) ∧
  (has_media e = true → truthy_str (msg_text (message_obj e)) = false →
   ∀ k f, media_of (message_obj e) = Some (k, f) →
   snd r3 = AnswerQuery :: SendMedia Channel k f (Some t) :: done).
Proof.
  intros s1 s2 r3 done Ha Hb Hq Hq0 Hp Hfrom Ht Hne Hallow Hroom Hok. subst a.
  set (a := msg_from_id msg) in *.
  assert (Hs1 : s1 = set_user_data (<[a := qid]> (user_data s)) s).
  { subst s1. unfold callback_handler.
    by rewrite (cb_lookup_hit ADMINS a "edit" qid e s Ha Hq). }
  assert (Hd1 : user_data s1 !! a = Some qid).
  { rewrite Hs1. simpl. apply lookup_insert_eq. }
  assert (Hq1 : queue s1 !! qid = Some e) by (by rewrite Hs1).
  assert (Htruthy : truthy_str (msg_text msg) = true).
  { rewrite Ht. simpl. by destruct (String.eqb_spec t ""). }
  assert (Hnew : str_or (msg_text msg) "" = t).
  { rewrite Ht. unfold str_or. by destruct (String.eqb_spec t ""). }
  assert (Hsubs : user_submissions s1 = user_submissions s) by (by rewrite Hs1).
  assert (Hsz : queue s1 = queue s) by (by rewrite Hs1).
  assert (Hs2 : queue s2 = <[qid := edited_entry t e]> (queue s) ∧
                user_data s2 = delete a (user_data s1)).
  { subst s2. unfold handle_private_message. rewrite Hp. simpl. fold a.
    rewrite Hsubs, Hsz.
    destruct (check_rate_limit (now_check env2) a (user_submissions s))
      as [[allowed w] subs']. simpl in Hallow. subst allowed. simpl.
    destruct (Z.leb_spec MAX_QUEUE_SIZE (Z.of_nat (size (queue s)))); [lia|].
    rewrite Ha, (editing_qid_lookup _ _ _ Hd1 Hq0). simpl. rewrite Htruthy.
    destruct (handle_edit_text_applies ADMINS env2 msg (set_user_submissions subs' s1) qid e
                Hp Ha Hd1 Hq0 Hq1) as [-> _].
    rewrite Hnew. simpl. by rewrite Hsz. }
  destruct Hs2 as [Hq2 Hd2].
  assert (Hq2' : queue s2 !! qid = Some (edited_entry t e)).
  { rewrite Hq2. apply lookup_insert_eq. }
  assert (Hchat : chat_id (edited_entry t e) = chat_id e).
  { unfold edited_entry. by destruct (has_media e). }
  split; [|split; [|split; [|split]]].
  - exists (edited_entry t e). split; [done|].
    unfold edited_entry. by destruct (has_media e).
  - rewrite Hd2. apply lookup_delete_eq.
  - subst r3. rewrite (callback_approve ADMINS env3 b qid _ s2 Hb Hq2'). simpl.
    apply lookup_delete_eq.
  - intros Hm Htext. subst r3.
    rewrite (callback_approve ADMINS env3 b qid _ s2 Hb Hq2'). simpl. rewrite Hok.
    rewrite (publish_edited_text t e Hne Hm Htext), Hchat. done.
  - intros Hm Htext k f Hmedia. subst r3.
    rewrite (callback_approve ADMINS env3 b qid _ s2 Hb Hq2'). simpl. rewrite Hok.
    rewrite (publish_edited_caption t e k f Hne Hm Htext Hmedia), Hchat. done.
Qed.

End Buttons.

(** ** Views, notifications, the listing, and other users *)

Section Views.

Variable ADMINS : list Z.

(** X22: for a text submission queued in a reachable state, the compact
    view, the details view and approval agree on the current content: it is
    the edited text if there is one and the original text otherwise; the
    views show the "edited" mark exactly when an edited text is set, the
    details view shows the original beside it, and the position shown is the
    entry's rank. *)
Theorem views_agree_with_approval (env : Env) (a k : Z) (e : Entry) (s : State) :
  let current := default (text e) (edited_text e) in
  reachable ADMINS s → is_admin ADMINS a = true → queue s !! k = Some e →
  truthy_str (msg_text (message_obj e)) = true → has_media e = false →
  publish e = Some (SendMessage Channel (Raw current)) ∧
  callback_handler ADMINS env (press a "back" k) s
  = (s, [AnswerQuery;
         EditAdminMessage a
           (ModerationView k (present (edited_text e)) (sender_info e)
              (truncate_preview current))]) ∧
  callback_handler ADMINS env (press a "details" k) s
  = (s, [AnswerQuery;
         EditAdminMessage a
           (DetailsView k (present (edited_text e)) (sender_info e) (timestamp e)
              (Some (S (ids_before (queue s) k))) (size (queue s))
              false (text e) (edited_text e))]).
Proof.
  intros current Hreach Ha Hq Ht Hm.
  destruct (reachable_inv ADMINS s Hreach) as (_ & _ & _ & _ & _ & Hwf).
  destruct (Hwf _ _ Hq) as (_ & Htext & _ & _ & _ & _ & _ & Hcap & Hne & _).
  specialize (Hcap Hm).
  assert (Htext_ne : text e ≠ "").
  { rewrite Htext. by apply truthy_str_nonempty. }
  assert (Htruthy : truthy_str (edited_text e) = present (edited_text e)).
  { destruct (edited_text e) as [t|]; [|done]. simpl.
    destruct (String.eqb_spec t ""); [by subst|done]. }
  assert (Hcur : str_or (edited_text e) (str_or (Some (text e)) "") = current).
  { subst current. destruct (edited_text e) as [t|]; simpl.
    - apply str_or_Some_ne. by intros ->.
    - by apply str_or_Some_ne. }
  assert (Hedited : is_edited e = present (edited_text e)).
  { unfold is_edited. rewrite Hcap, Htruthy. simpl. apply orb_false_r. }
  assert (Hback : back_preview e = truncate_preview current).
  { unfold back_preview. rewrite Hcap, Htruthy. f_equal. subst current.
    destruct (edited_text e) as [t|]; [done|]. cbn [present default truthy_str].
    by apply str_or_Some_ne. }
  split; [|split].
  - unfold publish. by rewrite Ht, Hcur.
  - unfold callback_handler. rewrite (cb_lookup_hit ADMINS a "back" k e s Ha Hq).
    unfold cb_apply. cbn [String.eqb Ascii.eqb Bool.eqb]. cbv iota.
    by rewrite Hedited, Hback.
  - unfold callback_handler. rewrite (cb_lookup_hit ADMINS a "details" k e s Ha Hq).
    unfold cb_apply. cbn [String.eqb Ascii.eqb Bool.eqb]. cbv iota.
    rewrite Hedited, Hm, Htruthy, get_queue_position_rank, Hq.
    rewrite bool_decide_eq_true_2 by eauto.
    by destruct (edited_text e).
Qed.

(** X23: an accepted submission records, for each moderator, the id of the
    notification sent to them: a moderator whose send returned a message has
    that message's id recorded, a moderator whose send failed, and anyone who
    is not a moderator, has none; when the message has neither text nor media
    nothing is sent and nothing recorded.  (Stated for a moderator list
    without repetitions, one send per moderator.) *)
Theorem notifications_recorded (env : Env) (msg : Message) (s : State) :
  let user := msg_from_id msg in
  let r := handle_private_message ADMINS env msg s in
  NoDup ADMINS →
  msg_chat_type msg = "private" →
  fst (fst (check_rate_limit (now_check env) user (user_submissions s))) = true →
  Z.of_nat (size (queue s)) < MAX_QUEUE_SIZE →
  is_admin ADMINS user && present (editing_qid (user_data s) user) = false →
  ∃ e, queue (fst r) !! _next_qid s = Some e ∧
       ∀ a, admin_messages e !! a
            = if notifiable msg && is_admin ADMINS a then admin_sent env a else None.
Proof.
  intros user r _ Hp Hallow Hroom Hedit.
  destruct (accepted_state ADMINS env msg s Hp Hallow Hroom Hedit) as (_ & _ & _ & Hq & _).
  exists (submitted_entry ADMINS env msg). split; [done|]. intros a.
  unfold submitted_entry. simpl. destruct (notifiable msg); simpl; [|apply lookup_empty].
  rewrite recorded_ids_lookup, lookup_empty.
  destruct (is_admin ADMINS a) eqn:Ha.
  - rewrite bool_decide_eq_true_2.
    + by destruct (admin_sent env a).
    + apply list_elem_of_In. by apply is_admin_In.
  - rewrite bool_decide_eq_false_2; [done|].
    intros Hin. apply list_elem_of_In, is_admin_In in Hin. congruence.
Qed.

(** X24: the [/queue] listing.  A user who is not a moderator is answered
    "not allowed"; a moderator gets "no pending submissions" for an empty
    queue and otherwise one line per queued entry, in strictly ascending
    order of id, each line carrying the sender name and kind of its entry,
    with the total equal to the number of lines. *)
Theorem queue_listing (msg : Message) (s : State) :
  (is_admin ADMINS (msg_from_id msg) = false → queue_cmd ADMINS msg s = NotAllowed) ∧
  (is_admin ADMINS (msg_from_id msg) = true → queue s = ∅ →
   queue_cmd ADMINS msg s = NoPendingSubmissions) ∧
  (is_admin ADMINS (msg_from_id msg) = true → queue s ≠ ∅ →
   ∃ lines,
     queue_cmd ADMINS msg s = PendingList (length lines) lines ∧
     length lines = size (queue s) ∧
     StronglySorted Z.lt (map line_qid lines) ∧
     (∀ k, is_Some (queue s !! k) ↔ In k (map line_qid lines)) ∧
     ∀ l, In l lines →
          ∃ e, queue s !! line_qid l = Some e ∧
               line_sender l = sender_name e ∧ line_media l = has_media e).
Proof.
  unfold queue_cmd. split; [by intros ->|]. split.
  - intros -> ->. by rewrite map_size_empty.
  - intros -> Hne. simpl.
    assert (Hsize : size (queue s) ≠ 0%nat) by (by intros ?%map_size_empty_inv).
    destruct (Nat.eqb_spec (size (queue s)) 0); [done|].
    set (items := merge_sort item_le (map_to_list (queue s))).
    assert (Hperm : items ≡ₚ map_to_list (queue s)) by apply merge_sort_Permutation.
    assert (Hsorted : StronglySorted item_le items)
      by apply (StronglySorted_merge_sort item_le).
    assert (Hnd : NoDup (map fst items)).
    { rewrite Hperm. apply (NoDup_fst_map_to_list (queue s)). }
    assert (Hlen : length (map queue_line items) = size (queue s)).
    { rewrite length_map, Hperm. apply length_map_to_list. }
    assert (Hids : map line_qid (map queue_line items) = map fst items).
    { rewrite map_map. by apply map_ext. }
    exists (map queue_line items). rewrite Hlen. split; [done|]. split; [done|].
    split; [|split].
    + rewrite Hids. clear -Hsorted Hnd.
      induction items as [|x xs IH]; [constructor|].
      apply StronglySorted_inv in Hsorted as [Hs Hall].
      apply NoDup_cons in Hnd as [Hx Hnd]. simpl. constructor; [by apply IH|].
      rewrite Forall_forall in Hall. apply Forall_forall. intros k Hk.
      apply list_elem_of_fmap in Hk as (y & -> & Hy).
      specialize (Hall y Hy). unfold item_le in Hall.
      assert (x.1 ≠ y.1); [|lia].
      intros Heq. apply Hx. rewrite Heq. apply list_elem_of_fmap. eauto.
    + intros k. rewrite Hids, <- list_elem_of_In, list_elem_of_fmap. split.
      * intros [e He]. exists (k, e). split; [done|].
        rewrite Hperm. by apply elem_of_map_to_list.
      * intros ([k' e] & -> & Hin). rewrite Hperm in Hin.
        apply elem_of_map_to_list in Hin. eauto.
    + intros l Hl. apply list_elem_of_In, list_elem_of_fmap in Hl as ([k e] & -> & Hin).
      rewrite Hperm in Hin. apply elem_of_map_to_list in Hin. exists e. done.
Qed.

(** X25: what one user does leaves every other user's edit session and rate
    window alone: after any update, the session and the recorded timestamps
    of every user other than the sender are as before. *)
Theorem other_users_untouched (u : Update) (s : State) (other : Z) :
  actor_of u ≠ other →
  user_data (step ADMINS u s) !! other = user_data s !! other ∧
  user_submissions (step ADMINS u s) !! other = user_submissions s !! other.
Proof.
  intros Hne. destruct u as [env msg|env q|msg|msg|msg]; simpl in *; try done.
  - set (s1 := set_user_submissions
                 (snd (check_rate_limit (now_check env) (msg_from_id msg)
                         (user_submissions s))) s).
    assert (H1 : user_data s1 !! other = user_data s !! other ∧
                 user_submissions s1 !! other = user_submissions s !! other).
    { subst s1. simpl. split; [done|]. rewrite check_rate_limit_table.
      by rewrite lookup_insert_ne. }
    destruct (private_message_cases ADMINS env msg s)
      as [->|[->|[(_ & _ & ->)|(Hp & Hallow & Hroom & Hedit)]]]; [done|done| |].
    + fold s1. destruct (handle_edit_text_frame ADMINS env msg s1) as [_ ->].
      split; [|by apply H1].
      destruct (edit_text_cases ADMINS env msg s1)
        as [->|[(qid & _ & _ & ->)|(qid & e & _ & _ & _ & _ & ->)]]; simpl.
      * by apply H1.
      * rewrite lookup_delete_ne by done. by apply H1.
      * rewrite lookup_delete_ne by done. by apply H1.
    + destruct (accepted_state ADMINS env msg s Hp Hallow Hroom Hedit)
        as (_ & -> & -> & _). split; [done|]. by rewrite lookup_insert_ne.
  - split.
    + destruct (callback_cases ADMINS env q s)
        as [->|(action & qid & e & _ & _ & _ & [[_ ->]|[[_ ->]|[_ ->]]])]; simpl; try done.
      * by rewrite lookup_insert_ne.
      * by rewrite lookup_delete_ne.
    + destruct (callback_cases ADMINS env q s)
        as [->|(action & qid & e & _ & _ & _ & [[_ ->]|[[_ ->]|[_ ->]]])]; done.
  - split; [|done]. by rewrite lookup_delete_ne.
Qed.

(** X26: a moderator who holds an edit session cannot submit, and what
    they send does not count against their rate limit: whatever private
    message they send, no new entry is queued, no id is consumed and no
    timestamp is recorded; the message is either taken as the edit, or
    answered with a denial or a request to send text. *)
Theorem moderator_in_session_cannot_submit
    (env : Env) (msg : Message) (qid : Z) (s : State) :
  let s' := fst (handle_private_message ADMINS env msg s) in
  let user := msg_from_id msg in
  is_admin ADMINS user = true →
  user_data s !! user = Some qid → qid ≠ 0 →
  _next_qid s' = _next_qid s ∧
  size (queue s') = size (queue s) ∧
  (∀ k, queue s !! k = None → queue s' !! k = None) ∧
  (∀ ts, In ts (submissions_of (user_submissions s') user) →
         In ts (submissions_of (user_submissions s) user)).
Proof.
  intros s' user Ha Hd Hq0.
  assert (Hedit : is_admin ADMINS user && present (editing_qid (user_data s) user) = true).
  { by rewrite Ha, (editing_qid_lookup _ _ _ Hd Hq0). }
  set (s1 := set_user_submissions
               (snd (check_rate_limit (now_check env) user (user_submissions s))) s).
  assert (Hpruned : ∀ ts, In ts (submissions_of (user_submissions s1) user) →
                          In ts (submissions_of (user_submissions s) user)).
  { intros ts. subst s1. simpl. rewrite check_rate_limit_retained, filter_In. tauto. }
  subst s'.
  destruct (private_message_cases ADMINS env msg s)
    as [->|[->|[(_ & _ & ->)|(_ & _ & _ & Hedit')]]];
    [done|done| |fold user in Hedit'; congruence].
  fold user s1. destruct (handle_edit_text_frame ADMINS env msg s1) as [Hn ->].
  rewrite Hn.
  destruct (edit_text_cases ADMINS env msg s1)
    as [->|[(k & _ & _ & ->)|(k & e & _ & _ & _ & Hq & ->)]]; [done|done|].
  simpl in *. split; [done|]. split; [|split; [|done]].
  - apply map_size_insert_Some. eauto.
  - intros k' Hnone. rewrite lookup_insert_ne; [done|]. intros ->. congruence.
Qed.

End Views.

(** * Further concrete runs *)

Lemma one_pending_reachable : reachable sample_admins one_pending.
Proof. exists [PrivateMessage (env_at 0) (text_message 7 "hello")]. vm_compute. reflexivity. Qed.

Lemma three_instant_reachable : reachable sample_admins three_instant.
Proof.
  exists [PrivateMessage (env_at 0) (text_message 7 "a");
          PrivateMessage (env_at 0) (text_message 7 "b");
          PrivateMessage (env_at 0) (text_message 7 "c")].
  vm_compute. reflexivity.
Qed.

Lemma editing_pending_reachable : reachable sample_admins editing_pending.
Proof.
  exists [PrivateMessage (env_at 0) (text_message 7 "hello");
          ButtonPress (env_at 1) (press 100 "edit" 1)].
  vm_compute. reflexivity.
Qed.

Lemma edited_pending_reachable : reachable sample_admins edited_pending.
Proof.
  exists [PrivateMessage (env_at 0) (text_message 7 "hello");
          ButtonPress (env_at 1) (press 100 "edit" 1);
          PrivateMessage (env_at 2) (text_message 100 "hello world")].
  vm_compute. reflexivity.
Qed.

Lemma full_state_reachable : reachable sample_admins full_state.
Proof. exists fifty_submissions. unfold full_state. reflexivity. Qed.

(** Removing id 1 from the queue 1, 2, 3 moves id 3 from position 3 to 2. *)
Lemma removal_shifts_later_positions_witness :
  get_queue_position (delete 1 (queue three_instant)) 3 = Some 2%nat.
Proof.
  apply (removal_shifts_later_positions (queue three_instant) 1 3 3).
  - vm_compute. eauto.
  - discriminate.
  - vm_compute. reflexivity.
Defined.

Lemma one_rejected_reachable : reachable sample_admins one_rejected.
Proof.
  exists [PrivateMessage (env_at 0) (text_message 7 "hello");
          ButtonPress (env_at 1) (press 100 "reject" 1)].
  reflexivity.
Qed.

Lemma sticker_pending_reachable : reachable sample_admins sticker_pending.
Proof. exists [PrivateMessage (env_at 0) (sticker_message 7)]. reflexivity. Qed.

Lemma sticker_edited_reachable : reachable sample_admins sticker_edited.
Proof.
  exists [PrivateMessage (env_at 0) (sticker_message 7);
          ButtonPress (env_at 1) (press 100 "edit" 1);
          PrivateMessage (env_at 2) (text_message 100 "fixed")].
  reflexivity.
Qed.

Lemma moderator_editing_after_three_reachable :
  reachable sample_admins moderator_editing_after_three.
Proof.
  exists [PrivateMessage (env_at 0) (text_message 100 "a");
          PrivateMessage (env_at 0) (text_message 100 "b");
          PrivateMessage (env_at 0) (text_message 100 "c");
          ButtonPress (env_at 1) (press 100 "edit" 1)].
  vm_compute. reflexivity.
Qed.

(** Lengths and cuts are in characters: "é" is two bytes and one character,
    and a cut never splits a character. *)
Example characters_are_counted :
  String.length "é" = 2%nat ∧ str_len "é" = 1%nat ∧
  str_take 1 "éa" = "é" ∧ str_take 2 "éa" = "éa" ∧
  str_len "hello" = 5%nat ∧ str_take 3 "hello" = "hel" ∧ str_take 9 "hello" = "hello".
Proof. vm_compute. repeat (split; [reflexivity|]). reflexivity. Qed.

(** A second submission to the queue holding one entry enters at position
    2 of 2. *)
Lemma new_submission_is_last_witness :
  ∃ more,
    snd (handle_private_message sample_admins (env_at 5) (text_message 8 "second") one_pending)
    = ReplyText (InModerationQueue (Some (S (size (queue one_pending))))
                   (S (size (queue one_pending)))) :: more.
Proof.
  pose proof (new_submission_is_last sample_admins (env_at 5) (text_message 8 "second")
                one_pending one_pending_reachable eq_refl) as H.
  destruct H as (_ & _ & _ & Hreply).
  - vm_compute. reflexivity.
  - vm_compute. reflexivity.
  - vm_compute. reflexivity.
  - exact Hreply.
Defined.

Lemma queued_ids_below_counter_witness :
  (∀ k e, queue one_pending !! k = Some e → 1 ≤ k < _next_qid one_pending) ∧
  queue one_pending !! _next_qid one_pending = None.
Proof. apply (queued_ids_below_counter sample_admins one_pending one_pending_reachable). Defined.

(** Id 1 was rejected; a later submission gets a new id and 1 stays gone. *)
Lemma ids_never_reused_witness :
  let later := [PrivateMessage (env_at 5) (text_message 8 "next")] in
  queue (run sample_admins later one_rejected) !! 1 = None ∧
  _next_qid one_rejected ≤ _next_qid (run sample_admins later one_rejected).
Proof.
  apply (ids_never_reused sample_admins one_rejected 1).
  - vm_compute. reflexivity.
  - vm_compute. reflexivity.
Defined.

Lemma queue_never_exceeds_capacity_witness :
  Z.of_nat (size (queue full_state)) ≤ MAX_QUEUE_SIZE.
Proof. apply (queue_never_exceeds_capacity sample_admins full_state full_state_reachable). Defined.

Lemma rate_windows_bounded_witness :
  (length (submissions_of (user_submissions three_instant) 7)
   ≤ Z.to_nat RATE_LIMIT_COUNT)%nat.
Proof. apply (rate_windows_bounded sample_admins three_instant 7 three_instant_reachable). Defined.

Lemma sessions_belong_to_moderators_witness :
  is_admin sample_admins 100 = true ∧ 1 ≤ 1 < _next_qid editing_pending ∧
  editing_qid (user_data editing_pending) 100 = Some 1.
Proof.
  apply (sessions_belong_to_moderators sample_admins editing_pending 100 1
           editing_pending_reachable).
  vm_compute. reflexivity.
Defined.

Lemma stored_entry_is_snapshot_witness :
  ∃ e, queue edited_pending !! 1 = Some e ∧
       text e = str_or (msg_text (message_obj e)) "" ∧
       sender_id e = msg_from_id (message_obj e).
Proof.
  eexists. split; [vm_compute; reflexivity|].
  match goal with
  | |- text ?e = _ ∧ _ =>
    destruct (stored_entry_is_snapshot sample_admins edited_pending 1 e
                edited_pending_reachable) as (_ & Htext & _ & _ & Hsender & _)
  end.
  - vm_compute. reflexivity.
  - split; [exact Htext|exact Hsender].
Defined.

(** The approval theorem at the edited sticker: the replacement text "fixed"
    is set, and approval sends nothing to the channel while reporting the
    submission as approved and posted. *)
Lemma approve_publishes_current_content_witness :
  ∃ e, queue sticker_edited !! 1 = Some e ∧
       edited_text e = Some "fixed" ∧
       snd (callback_handler sample_admins (env_at 3) (press 200 "approve" 1)
              sticker_edited)
       = [AnswerQuery; EditAdminMessage 200 (ApprovedBanner 1);
          SendMessage (Chat (chat_id e)) ApprovedNotice].
Proof.
  eexists. split; [vm_compute; reflexivity|]. split; [vm_compute; reflexivity|].
  match goal with
  | |- context [chat_id ?e] =>
    destruct (approve_publishes_current_content sample_admins (env_at 3) 200 1 e
                sticker_edited sticker_edited_reachable eq_refl)
      as (_ & _ & _ & _ & _ & _ & Hnone)
  end.
  - vm_compute. reflexivity.
  - reflexivity.
  - apply Hnone; reflexivity.
Defined.

Lemma overrides_exclusive_and_nonempty_witness :
  ∃ e, queue edited_pending !! 1 = Some e ∧
       edited_text e ≠ Some "" ∧
       publish e = Some (SendMessage Channel (Raw (default (text e) (edited_text e)))).
Proof.
  eexists. split; [vm_compute; reflexivity|].
  match goal with
  | |- edited_text ?e ≠ _ ∧ _ =>
    destruct (overrides_exclusive_and_nonempty sample_admins edited_pending 1 e
                edited_pending_reachable) as (_ & _ & Hne & _ & Hpub & _)
  end.
  - vm_compute. reflexivity.
  - split; [exact Hne|]. apply Hpub. reflexivity.
Defined.

(** The entry of submission 1 before and after the edit to "hello world". *)
Lemma original_never_changes_witness :
  ∃ e e',
    queue one_pending !! 1 = Some e ∧
    queue (run sample_admins
             [ButtonPress (env_at 1) (press 100 "edit" 1);
              PrivateMessage (env_at 2) (text_message 100 "hello world")] one_pending) !! 1
    = Some e' ∧
    same_original e e'.
Proof.
  eexists. eexists. split; [vm_compute; reflexivity|]. split; [vm_compute; reflexivity|].
  apply (original_never_changes sample_admins one_pending 1 _ _
           [ButtonPress (env_at 1) (press 100 "edit" 1);
            PrivateMessage (env_at 2) (text_message 100 "hello world")]
           one_pending_reachable).
  - vm_compute. reflexivity.
  - vm_compute. reflexivity.
Defined.

(** User 7, not a moderator, presses Reject on submission 1: it stays. *)
Lemma non_moderator_changes_no_entry_witness :
  let u := ButtonPress (env_at 1) (press 7 "reject" 1) in
  (∀ k e, queue one_pending !! k = Some e →
          queue (step sample_admins u one_pending) !! k = Some e) ∧
  user_data (step sample_admins u one_pending) = user_data one_pending.
Proof.
  apply (non_moderator_changes_no_entry sample_admins
           (ButtonPress (env_at 1) (press 7 "reject" 1)) one_pending one_pending_reachable).
  reflexivity.
Defined.

Lemma removal_needs_moderator_witness :
  let u := ButtonPress (env_at 1) (press 100 "reject" 1) in
  is_admin sample_admins (actor_of u) = true ∧
  ∃ env q, u = ButtonPress env q ∧
           (cq_data q = Some ("approve", 1) ∨ cq_data q = Some ("reject", 1)).
Proof.
  eapply (removal_needs_moderator sample_admins
            (ButtonPress (env_at 1) (press 100 "reject" 1)) one_pending 1 _
            one_pending_reachable).
  - vm_compute. reflexivity.
  - vm_compute. reflexivity.
Defined.

(** User 60 is turned away by the full queue of fifty; after moderator 100
    rejects submission 1 the same message enters at position 50 of 50. *)
Lemma slot_freed_by_removal_witness :
  let msg := text_message 60 "late" in
  let r1 := handle_private_message sample_admins (env_at 1) msg full_state in
  let s2 := fst (callback_handler sample_admins (env_at 2) (press 100 "reject" 1) (fst r1)) in
  let r3 := handle_private_message sample_admins (env_at 3) msg s2 in
  snd r1 = [ReplyText QueueIsFull] ∧
  queue (fst r1) = queue full_state ∧
  ∃ more, snd r3 = ReplyText (InModerationQueue (Some 50%nat) 50) :: more.
Proof.
  eapply (slot_freed_by_removal sample_admins (env_at 1) (env_at 2) (env_at 3)
            (text_message 60 "late") 100 1 "reject" _ full_state full_state_reachable).
  - vm_compute. discriminate.
  - reflexivity.
  - vm_compute. reflexivity.
  - reflexivity.
  - right. reflexivity.
  - vm_compute. reflexivity.
  - vm_compute. reflexivity.
  - vm_compute. reflexivity.
Defined.

Lemma earlier_check_changes_no_later_result_witness :
  check_rate_limit 299500000 7
    (snd (check_rate_limit 500000 7 (user_submissions three_instant)))
  = check_rate_limit 299500000 7 (user_submissions three_instant).
Proof.
  apply (earlier_check_changes_no_later_result 500000 299500000 7
           (user_submissions three_instant)).
  vm_compute. discriminate.
Defined.

(** Approving the pending sticker sends nothing to the channel. *)
Lemma approval_of_contentless_entry_witness :
  ∃ e, queue sticker_pending !! 1 = Some e ∧
       publish e = None ∧
       callback_handler sample_admins (env_at 1) (press 100 "approve" 1) sticker_pending
       = (set_queue (delete 1 (queue sticker_pending)) sticker_pending,
          [AnswerQuery; EditAdminMessage 100 (ApprovedBanner 1);
           SendMessage (Chat (chat_id e)) ApprovedNotice]).
Proof.
  eexists. split; [vm_compute; reflexivity|].
  match goal with
  | |- publish ?e = None ∧ _ =>
    destruct (approval_of_contentless_entry sample_admins (env_at 1) 100 1 e sticker_pending)
      as (Hnone & _ & Happrove)
  end.
  - reflexivity.
  - vm_compute. reflexivity.
  - assert (Hpub : publish _ = None) by (apply Hnone; split; reflexivity).
    split; [exact Hpub|exact (Happrove Hpub)].
Defined.

Lemma unknown_action_is_ignored_witness :
  callback_handler sample_admins (env_at 1) (press 100 "archive" 1) one_pending
  = (one_pending, [AnswerQuery]).
Proof.
  eapply (unknown_action_is_ignored sample_admins (env_at 1) 100 1 "archive" _ one_pending).
  - reflexivity.
  - vm_compute. reflexivity.
  - discriminate.
  - discriminate.
  - discriminate.
  - discriminate.
  - discriminate.
  - discriminate.
Defined.

(** Moderator 100 rejects submission 1; after another user has submitted,
    moderator 200's Approve on 1 is answered "already handled". *)
Lemma handled_submission_stays_handled_witness :
  let s1 := step sample_admins (ButtonPress (env_at 1) (press 100 "reject" 1)) one_pending in
  let s2 := run sample_admins [PrivateMessage (env_at 5) (text_message 8 "next")] s1 in
  queue s2 !! 1 = None ∧
  callback_handler sample_admins (env_at 6) (press 200 "approve" 1) s2
  = (s2, [AnswerQuery; EditAdminMessage 200 NotFoundOrHandled]).
Proof.
  eapply (handled_submission_stays_handled sample_admins (env_at 1) (env_at 6) 100 200 1
            "reject" "approve" _ one_pending
            [PrivateMessage (env_at 5) (text_message 8 "next")] one_pending_reachable).
  - reflexivity.
  - reflexivity.
  - right. reflexivity.
  - vm_compute. reflexivity.
Defined.

Lemma edit_then_cancel_restores_witness :
  let s1 := fst (callback_handler sample_admins (env_at 1) (press 100 "edit" 1) three_instant) in
  user_data s1 !! 100 = Some 1 ∧
  queue s1 = queue three_instant ∧
  user_data (fst (callback_handler sample_admins (env_at 1) (press 100 "edit" 2) s1)) !! 100
  = Some 2 ∧
  fst (callback_handler sample_admins (env_at 1) (press 100 "cancel_edit" 1) s1)
  = three_instant ∧
  fst (cancel_edit (text_message 100 "/cancel") s1) = three_instant.
Proof.
  eapply (edit_then_cancel_restores sample_admins (env_at 1) 100 1 2 _ _
            (text_message 100 "/cancel") three_instant).
  - reflexivity.
  - vm_compute. reflexivity.
  - vm_compute. reflexivity.
  - vm_compute. reflexivity.
  - reflexivity.
Defined.

Lemma edit_round_trip_publishes_edit_witness :
  let s1 := fst (callback_handler sample_admins (env_at 1) (press 100 "edit" 1) one_pending) in
  let s2 := fst (handle_private_message sample_admins (env_at 2)
                   (text_message 100 "hello world") s1) in
  let r3 := callback_handler sample_admins (env_at 3) (press 200 "approve" 1) s2 in
  user_data s2 !! 100 = None ∧ queue (fst r3) !! 1 = None ∧
  ∃ e, queue one_pending !! 1 = Some e ∧
       snd r3 = [AnswerQuery; SendMessage Channel (Raw "hello world");
                 EditAdminMessage 200 (ApprovedBanner 1);
                 SendMessage (Chat (chat_id e)) ApprovedNotice].
Proof.
  edestruct (edit_round_trip_publishes_edit sample_admins (env_at 1) (env_at 2) (env_at 3)
               100 200 1 "hello world"
               (default (submitted_entry sample_admins (env_at 0) (text_message 7 "hello"))
                  (queue one_pending !! 1))
               (text_message 100 "hello world") one_pending)
    as (_ & Hsession & Hgone & Htextcase & _).
  - reflexivity.
  - reflexivity.
  - vm_compute. reflexivity.
  - discriminate.
  - reflexivity.
  - reflexivity.
  - reflexivity.
  - discriminate.
  - vm_compute. reflexivity.
  - vm_compute. reflexivity.
  - reflexivity.
  - split; [exact Hsession|]. split; [exact Hgone|].
    eexists. split; [vm_compute; reflexivity|].
    apply Htextcase; vm_compute; reflexivity.
Defined.

Lemma views_agree_with_approval_witness :
  ∃ e, queue edited_pending !! 1 = Some e ∧
       callback_handler sample_admins (env_at 3) (press 100 "back" 1) edited_pending
       = (edited_pending,
          [AnswerQuery;
           EditAdminMessage 100
             (ModerationView 1 (present (edited_text e)) (sender_info e)
                (truncate_preview (default (text e) (edited_text e))))]).
Proof.
  eexists. split; [vm_compute; reflexivity|].
  match goal with
  | |- context [sender_info ?e] =>
    destruct (views_agree_with_approval sample_admins (env_at 3) 100 1 e edited_pending
                edited_pending_reachable) as (_ & Hback & _)
  end.
  - reflexivity.
  - vm_compute. reflexivity.
  - vm_compute. reflexivity.
  - vm_compute. reflexivity.
  - exact Hback.
Defined.

Lemma notifications_recorded_witness :
  let r := handle_private_message sample_admins (env_at 0) (text_message 7 "hello")
             initial_state in
  ∃ e, queue (fst r) !! _next_qid initial_state = Some e ∧
       ∀ a, admin_messages e !! a
            = if notifiable (text_message 7 "hello") && is_admin sample_admins a
              then admin_sent (env_at 0) a else None.
Proof.
  apply (notifications_recorded sample_admins (env_at 0) (text_message 7 "hello")
           initial_state).
  - apply (bool_decide_unpack (NoDup sample_admins)). vm_compute. exact I.
  - reflexivity.
  - vm_compute. reflexivity.
  - vm_compute. reflexivity.
  - vm_compute. reflexivity.
Defined.

(** Moderator 200's reject leaves moderator 100's session and window alone. *)
Lemma other_users_untouched_witness :
  let u := ButtonPress (env_at 2) (press 200 "reject" 1) in
  user_data (step sample_admins u editing_pending) !! 100
  = user_data editing_pending !! 100 ∧
  user_submissions (step sample_admins u editing_pending) !! 100
  = user_submissions editing_pending !! 100.
Proof.
  apply (other_users_untouched sample_admins
           (ButtonPress (env_at 2) (press 200 "reject" 1)) editing_pending 100).
  discriminate.
Defined.

(** Moderator 100, in an edit session on submission 1, sends a photo: no
    entry is added and no id consumed. *)
Lemma moderator_in_session_cannot_submit_witness :
  let s' := fst (handle_private_message sample_admins (env_at 2)
                   (photo_message 100 None) editing_pending) in
  _next_qid s' = _next_qid editing_pending ∧
  size (queue s') = size (queue editing_pending) ∧
  (∀ k, queue editing_pending !! k = None → queue s' !! k = None) ∧
  (∀ ts, In ts (submissions_of (user_submissions s') 100) →
         In ts (submissions_of (user_submissions editing_pending) 100)).
Proof.
  apply (moderator_in_session_cannot_submit sample_admins (env_at 2)
           (photo_message 100 None) 1 editing_pending).
  - reflexivity.
  - vm_compute. reflexivity.
  - discriminate.
Defined.
